(** * statediff.Service: the subscription registry, the fan-out and the loop

    A shallow embedding of [statediff/service.go].  The service is a record
    of its fields; the channels it writes to live in a store indexed by
    channel references, so that two subscriptions holding the same channel
    really share it.  Every Go function becomes a computation in a small
    monad that threads the world (service, channel store, trace) and has
    three ways to end: a normal return, a run-time panic, or a goroutine
    parked for ever on the mutex. *)

From Stdlib Require Import ZArith Strings.Byte Lia.
From stdpp Require Import gmap strings list fin_maps.

Local Open Scope string_scope.
Local Open Scope list_scope.
Local Open Scope Z_scope.

(** ** Plain data *)

#[global] Instance byte_eq_dec' : EqDecision byte := Byte.byte_eq_dec.

(** [rpc.ID] is a Go string; channel values are references into a store. *)
Abbreviation ID := string (only parsing).
Abbreviation chan_ref := positive (only parsing).

(** [common.Hash] is a [32]byte; [Hash.Bytes()] is the list of its bytes. *)
Abbreviation Hash := (list byte) (only parsing).

(** [bytes.Equal] on two byte slices. *)
Definition bytes_Equal (a b : list byte) : bool := bool_decide (a = b).

(** Go's [error] values; a returned [error] is [None] for [nil]. *)
Abbreviation GoError := string (only parsing).

Inductive Result (A : Type) : Type :=
| Ok (a : A)
| Err (e : GoError).
Arguments Ok {A} a.
Arguments Err {A} e.

(** Modelled from the spec: [types.Block] is declared outside this file;
    the service only reads its hash, parent hash, height and state root. *)
Record Block : Type := mkBlock {
  Block_Hash : Hash;
  Block_ParentHash : Hash;
  Block_Number : Z;
  Block_Root : Hash
}.

(** [core.ChainEvent], of which the loop reads the [Block] field only. *)
Record ChainEvent : Type := mkChainEvent { ev_Block : Block }.

(** Modelled from the spec: [StateDiff] is declared in another file of the
    package; a diff carries the identity of its block and the account
    deltas, and the empty diff of a block has no deltas. *)
Record StateDiff : Type := mkStateDiff {
  BlockNumber : Z;
  BlockHash : Hash;
  AccountDeltas : list (list byte)
}.

(** Modelled from the spec: [Payload] is declared in another file of the
    package; the service fills these three fields. *)
Record Payload : Type := mkPayload {
  StateDiffRlp : list byte;
  BlockRlp : list byte;
  ReceiptsRlp : list byte
}.

(** Modelled from the spec: [Subscription] is declared in another file of
    the package; it holds the two consumer-owned channels. *)
Record Subscription : Type := mkSubscription {
  PayloadChan : chan_ref;
  sub_QuitChan : chan_ref
}.

(** ** Channels

    A channel has a capacity, a buffer, a number of receivers parked on it
    and a closed flag.  [chansend] is the non-blocking send that a
    [select] with one send case and a [default] compiles to: a nil channel
    (a reference bound to nothing in the store) is never ready, a closed
    channel panics, a parked receiver takes the value directly, a buffer
    with room stores it, and otherwise the [default] branch runs. *)

Record Chan (V : Type) : Type := mkChan {
  ch_cap : nat;
  ch_buf : list V;
  ch_recvq : nat;
  ch_closed : bool
}.
Arguments mkChan {V} _ _ _ _.
Arguments ch_cap {V} _.
Arguments ch_buf {V} _.
Arguments ch_recvq {V} _.
Arguments ch_closed {V} _.

Inductive TrySend (V : Type) : Type :=
| SendOk (c : Chan V)
| SendWouldBlock
| SendPanic.
Arguments SendOk {V} c.
Arguments SendWouldBlock {V}.
Arguments SendPanic {V}.

Definition chansend {V : Type} (c : option (Chan V)) (v : V) : TrySend V :=
  match c with
  | None => SendWouldBlock
  | Some c =>
      if ch_closed c then SendPanic
      else if (0 <? ch_recvq c)%nat
      then SendOk (mkChan (ch_cap c) (ch_buf c) (pred (ch_recvq c)) false)
      else if (length (ch_buf c) <? ch_cap c)%nat
      then SendOk (mkChan (ch_cap c) (ch_buf c ++ [v]) (ch_recvq c) false)
      else SendWouldBlock
  end.

(** The builtin [close(ch)]: nil and already closed channels panic. *)
Definition closechan {V : Type} (c : option (Chan V)) : option (Chan V) :=
  match c with
  | None => None
  | Some c =>
      if ch_closed c then None
      else Some (mkChan (ch_cap c) (ch_buf c) 0 true)
  end.

(** ** The service and the world around it *)

Record Service : Type := mkService {
  Mutex : bool;                              (* embedded sync.Mutex: held? *)
  QuitChan : chan_ref;
  Subscriptions : gmap string Subscription;
  lastBlock : option Block;
  StreamBlock : bool;
  subscribers : Z                            (* int32 flag *)
}.

Inductive Level : Type := LvlDebug | LvlInfo | LvlWarn | LvlError.

(** What an observer of one run can see: the log lines, the calls made to
    the collaborators, and every attempt to write to a subscriber. *)
Inductive Event : Type :=
| EvLog (lvl : Level) (msg : string)
| EvBuildStateDiff (oldRoot newRoot : Hash) (number : Z) (hash : Hash)
| EvGetBlockByHash (h : Hash)
| EvGetReceiptsByHash (h : Hash)
| EvSubscribeChainEvent
| EvChainEventUnsubscribe
| EvPayload (id : ID) (p : Payload) (accepted : bool)
| EvQuit (id : ID) (accepted : bool).

Record World : Type := mkWorld {
  sds : Service;
  payloadChans : gmap positive (Chan Payload);
  boolChans : gmap positive (Chan bool);
  trace : list Event
}.

Definition with_Mutex (b : bool) (s : Service) : Service :=
  mkService b (QuitChan s) (Subscriptions s) (lastBlock s) (StreamBlock s) (subscribers s).
Definition with_Subscriptions (m : gmap string Subscription) (s : Service) : Service :=
  mkService (Mutex s) (QuitChan s) m (lastBlock s) (StreamBlock s) (subscribers s).
Definition with_lastBlock (b : option Block) (s : Service) : Service :=
  mkService (Mutex s) (QuitChan s) (Subscriptions s) b (StreamBlock s) (subscribers s).
Definition with_subscribers (n : Z) (s : Service) : Service :=
  mkService (Mutex s) (QuitChan s) (Subscriptions s) (lastBlock s) (StreamBlock s) n.

Definition with_sds (f : Service -> Service) (w : World) : World :=
  mkWorld (f (sds w)) (payloadChans w) (boolChans w) (trace w).
Definition with_payloadChans (h : gmap positive (Chan Payload)) (w : World) : World :=
  mkWorld (sds w) h (boolChans w) (trace w).
Definition with_boolChans (h : gmap positive (Chan bool)) (w : World) : World :=
  mkWorld (sds w) (payloadChans w) h (trace w).
Definition with_trace (t : list Event) (w : World) : World :=
  mkWorld (sds w) (payloadChans w) (boolChans w) t.

(** ** The monad *)

Inductive Outcome (A : Type) : Type :=
| Ret (a : A) (w : World)          (* returned normally *)
| Panic (msg : string) (w : World) (* run-time panic, with the world then *)
| Park (w : World).                (* blocked for ever on the mutex *)
Arguments Ret {A} a w.
Arguments Panic {A} msg w.
Arguments Park {A} w.

Definition world_of {A : Type} (o : Outcome A) : World :=
  match o with Ret _ w => w | Panic _ w => w | Park w => w end.

Definition M (A : Type) : Type := World -> Outcome A.

#[global] Instance M_ret : MRet M := fun A a w => Ret a w.
#[global] Instance M_bind : MBind M := fun A B f m w =>
  match m w with
  | Ret a w' => f a w'
  | Panic msg w' => Panic msg w'
  | Park w' => Park w'
  end.

Definition get_sds : M Service := fun w => Ret (sds w) w.
Definition modify_sds (f : Service -> Service) : M unit :=
  fun w => Ret tt (with_sds f w).
Definition emit (e : Event) : M unit :=
  fun w => Ret tt (with_trace (trace w ++ [e]) w).

(** A log call is recorded with its level and the text it is given in
    the source: for a line built with [fmt.Sprintf] that is the format
    string, the arguments are not rendered. *)
Definition log (lvl : Level) (msg : string) : M unit := emit (EvLog lvl msg).

(** [sds.Lock()] and [sds.Unlock()].  Every critical section of the
    service runs to its end once entered, so a mutex found held on entry
    was left held by an earlier call and is never released. *)
Definition Lock : M unit := fun w =>
  if Mutex (sds w) then Park w else Ret tt (with_sds (with_Mutex true) w).
Definition Unlock : M unit := fun w =>
  if Mutex (sds w) then Ret tt (with_sds (with_Mutex false) w)
  else Panic "sync: unlock of unlocked mutex" w.

(** [atomic.LoadInt32(&sds.subscribers)] and
    [atomic.CompareAndSwapInt32(&sds.subscribers, old, new)]. *)
Definition atomic_LoadInt32 : M Z := fun w => Ret (subscribers (sds w)) w.
Definition atomic_CompareAndSwapInt32 (old new : Z) : M bool := fun w =>
  if subscribers (sds w) =? old
  then Ret true (with_sds (with_subscribers new) w)
  else Ret false w.

(** [select { case ch <- v: ...; default: ... }] on a payload channel and
    on a control channel; the result says whether the send case ran. *)
Definition select_send_Payload (ch : chan_ref) (v : Payload) : M bool := fun w =>
  match chansend (payloadChans w !! ch) v with
  | SendOk c => Ret true (with_payloadChans (<[ch := c]> (payloadChans w)) w)
  | SendWouldBlock => Ret false w
  | SendPanic => Panic "send on closed channel" w
  end.
Definition select_send_bool (ch : chan_ref) (v : bool) : M bool := fun w =>
  match chansend (boolChans w !! ch) v with
  | SendOk c => Ret true (with_boolChans (<[ch := c]> (boolChans w)) w)
  | SendWouldBlock => Ret false w
  | SendPanic => Panic "send on closed channel" w
  end.

(** [close(ch)] on a control channel. *)
Definition close_bool (ch : chan_ref) : M unit := fun w =>
  match boolChans w !! ch with
  | None => Panic "close of nil channel" w
  | Some c =>
      match closechan (Some c) with
      | Some c' => Ret tt (with_boolChans (<[ch := c']> (boolChans w)) w)
      | None => Panic "close of closed channel" w
      end
  end.

(** ** The collaborators

    The builder, the chain and the encoder are interfaces of other
    packages; the service is verified against any implementation. *)

(** [types.Receipts]: each receipt is an opaque byte string here. *)
Abbreviation Receipts := (list (list byte)) (only parsing).

Class Builder : Type := {
  BuildStateDiff : Hash -> Hash -> Z -> Hash -> Result StateDiff
}.

Class blockChain : Type := {
  GetBlockByHash : Hash -> option Block;
  GetReceiptsByHash : Hash -> Receipts
}.

Class Encoder : Type := {
  rlp_EncodeStateDiff : StateDiff -> Result (list byte);
  Block_EncodeRLP : Block -> Result (list byte);
  rlp_EncodeReceipts : Receipts -> Result (list byte)
}.

(** The order in which [for id, sub := range m] visits a map is not
    specified by Go; any enumeration of the entries is allowed. *)
Class MapRange : Type := {
  range : gmap string Subscription -> list (string * Subscription);
  range_perm : forall m, range m ≡ₚ map_to_list m
}.

(** [reflect.DeepEqual] on two byte slices that both come out of a
    successful [rlp.EncodeToBytes], hence are both non-nil. *)
Definition reflect_DeepEqual (a b : list byte) : bool := bool_decide (a = b).

(** ** The service's methods *)

Section Service.
Context {builder : Builder} {chain : blockChain} {encoder : Encoder} {order : MapRange}.

(** [NewStateDiffService]: the mutex is free, the registry is an empty
    map, the flag is the zero value, and [QuitChan] is a fresh unbuffered
    channel. *)
Definition NewStateDiffService (config_StreamBlock : bool) : World :=
  mkWorld (mkService false 1%positive ∅ None config_StreamBlock 0)
          ∅ {[ 1%positive := mkChan 0%nat [] 0%nat false ]} [].

Definition getEmptyStateDiffRlpForBlock (block : Block) : Result (list byte) :=
  let stateDiffWithoutUpdatedAccounts :=
    mkStateDiff (Block_Number block) (Block_Hash block) [] in
  rlp_EncodeStateDiff stateDiffWithoutUpdatedAccounts.

Definition isEmptyPayload (payload : Payload) (block : Block)
  : bool * option GoError :=
  match getEmptyStateDiffRlpForBlock block with
  | Err err => (false, Some err)
  | Ok emptyStateDiffRlp =>
      (reflect_DeepEqual (StateDiffRlp payload) emptyStateDiffRlp, None)
  end.

(** One turn of the body of the [range] loop of [send]. *)
Definition send_entry (payload : Payload) (entry : string * Subscription) : M unit :=
  let '(id, sub) := entry in
  sent ← select_send_Payload (PayloadChan sub) payload;
  if (sent : bool) then
    emit (EvPayload id payload true) ;;
    log LvlInfo "sending state diff payload to subscription %s"
  else
    emit (EvPayload id payload false) ;;
    log LvlInfo "unable to send payload to subscription %s; channel has no receiver" ;;
    closed ← select_send_bool (sub_QuitChan sub) true;
    emit (EvQuit id closed) ;;
    (if (closed : bool)
     then log LvlInfo "closing subscription %s"
     else log LvlInfo "unable to close subscription %s; channel has no receiver") ;;
    modify_sds (fun s => with_Subscriptions (delete id (Subscriptions s)) s).

(** The loop itself.  Only the entry being visited is ever deleted, so Go
    visits exactly the entries the map had when the loop started. *)
Fixpoint send_range (payload : Payload) (entries : list (string * Subscription)) : M unit :=
  match entries with
  | [] => mret tt
  | entry :: rest => send_entry payload entry ;; send_range payload rest
  end.

(** The tail shared by [Unsubscribe] and [send]:
    [if len(sds.Subscriptions) == 0 { if CompareAndSwap(1, 0) { log } }]. *)
Definition halt_if_empty : M unit :=
  s ← get_sds;
  if (size (Subscriptions s) =? 0)%nat then
    swapped ← atomic_CompareAndSwapInt32 1 0;
    if (swapped : bool)
    then log LvlInfo "No more subscriptions; halting statediff processing"
    else mret tt
  else mret tt.

Definition send (payload : Payload) : M unit :=
  Lock ;;
  s ← get_sds;
  send_range payload (range (Subscriptions s)) ;;
  halt_if_empty ;;
  Unlock.

Definition close_entry (entry : string * Subscription) : M unit :=
  let '(id, sub) := entry in
  closed ← select_send_bool (sub_QuitChan sub) true;
  emit (EvQuit id closed) ;;
  (if (closed : bool)
   then log LvlInfo "closing subscription %s"
   else log LvlInfo "unable to close subscription %s; channel has no receiver") ;;
  modify_sds (fun s => with_Subscriptions (delete id (Subscriptions s)) s).

Fixpoint close_range (entries : list (string * Subscription)) : M unit :=
  match entries with
  | [] => mret tt
  | entry :: rest => close_entry entry ;; close_range rest
  end.

Definition close : M unit :=
  Lock ;;
  s ← get_sds;
  close_range (range (Subscriptions s)) ;;
  Unlock.

Definition processStateDiff (currentBlock parentBlock : Block) : M (option GoError) :=
  emit (EvBuildStateDiff (Block_Root parentBlock) (Block_Root currentBlock)
          (Block_Number currentBlock) (Block_Hash currentBlock)) ;;
  match BuildStateDiff (Block_Root parentBlock) (Block_Root currentBlock)
          (Block_Number currentBlock) (Block_Hash currentBlock) with
  | Err err => mret (Some err)
  | Ok stateDiff =>
  match rlp_EncodeStateDiff stateDiff with
  | Err err => mret (Some err)
  | Ok stateDiffRlp =>
      s ← get_sds;
      assembled ← (if StreamBlock s then
                     match Block_EncodeRLP currentBlock with
                     | Err err => mret (Err err)
                     | Ok blockRlp =>
                         emit (EvGetReceiptsByHash (Block_Hash currentBlock)) ;;
                         match rlp_EncodeReceipts
                                 (GetReceiptsByHash (Block_Hash currentBlock)) with
                         | Err err => mret (Err err)
                         | Ok receiptsRlp =>
                             mret (Ok (mkPayload stateDiffRlp blockRlp receiptsRlp))
                         end
                     end
                   else mret (Ok (mkPayload stateDiffRlp [] [])));
      match (assembled : Result Payload) with
      | Err err => mret (Some err)
      | Ok payload =>
          let '(isEmpty, err) := isEmptyPayload payload currentBlock in
          (if err is Some _
           then log LvlWarn "Error checking if payload is empty"
           else mret tt) ;;
          (if negb isEmpty then send payload else mret tt) ;;
          mret None
      end
  end
  end.

Definition Subscribe (id : ID) (sub quitChan : chan_ref) : M unit :=
  log LvlInfo "Subscribing to the statediff service" ;;
  swapped ← atomic_CompareAndSwapInt32 0 1;
  (if (swapped : bool)
   then log LvlInfo "State diffing subscription received; beginning statediff processing"
   else mret tt) ;;
  Lock ;;
  modify_sds (fun s =>
    with_Subscriptions (<[id := mkSubscription sub quitChan]> (Subscriptions s)) s) ;;
  Unlock.

Definition Unsubscribe (id : ID) : M (option GoError) :=
  log LvlInfo "Unsubscribing from the statediff service" ;;
  Lock ;;
  s ← get_sds;
  match Subscriptions s !! id with
  | None =>
      mret (Some "cannot unsubscribe; subscription for id %s does not exist")
  | Some _ =>
      modify_sds (fun s => with_Subscriptions (delete id (Subscriptions s)) s) ;;
      halt_if_empty ;;
      Unlock ;;
      mret None
  end.

Definition Stop : M (option GoError) :=
  log LvlInfo "Stopping statediff service" ;;
  s ← get_sds;
  close_bool (QuitChan s) ;;
  mret None.

(** The [case chainEvent := <-chainEventCh] arm of the loop's [select]. *)
Definition Loop_chainEvent (chainEvent : ChainEvent) : M unit :=
  log LvlDebug "Event received from chainEventCh" ;;
  n ← atomic_LoadInt32;
  if (n : Z) =? 0 then
    log LvlDebug "Currently no subscribers to the statediffing service; processing is halted"
  else
    let currentBlock := ev_Block chainEvent in
    let parentHash := Block_ParentHash currentBlock in
    s ← get_sds;
    parentBlock ← match lastBlock s with
                  | Some last =>
                      if bytes_Equal (Block_Hash last) (Block_ParentHash currentBlock)
                      then mret (Some last)
                      else emit (EvGetBlockByHash parentHash) ;;
                           mret (GetBlockByHash parentHash)
                  | None => emit (EvGetBlockByHash parentHash) ;;
                            mret (GetBlockByHash parentHash)
                  end;
    modify_sds (with_lastBlock (Some currentBlock)) ;;
    match (parentBlock : option Block) with
    | None => log LvlError "Parent block is nil, skipping this block (%d)"
    | Some parentBlock =>
        err ← processStateDiff currentBlock parentBlock;
        if (err : option GoError) is Some _
        then log LvlError "Error building statediff for block %d; error: "
        else mret tt
    end.

(** Which arm of the [select] fires is the scheduler's choice; a run of
    the loop is driven by the list of arms that fired. *)
Inductive SelectCase : Type :=
| RecvChainEvent (chainEvent : ChainEvent)
| RecvErr (err : GoError)
| RecvQuit.

Inductive LoopState : Type := Selecting | Returned.

Definition Loop_select (c : SelectCase) : M LoopState :=
  match c with
  | RecvChainEvent chainEvent => Loop_chainEvent chainEvent ;; mret Selecting
  | RecvErr _ =>
      log LvlWarn "Error from chain event subscription, breaking loop" ;;
      close ;; mret Returned
  | RecvQuit =>
      log LvlInfo "Quitting the statediffing process" ;;
      close ;; mret Returned
  end.

Fixpoint Loop_for (cases : list SelectCase) : M LoopState :=
  match cases with
  | [] => mret Selecting
  | c :: rest =>
      st ← Loop_select c;
      match (st : LoopState) with
      | Selecting => Loop_for rest
      | Returned => mret Returned
      end
  end.

Definition Loop (cases : list SelectCase) : M LoopState :=
  emit EvSubscribeChainEvent ;;
  st ← Loop_for cases;
  match (st : LoopState) with
  | Selecting => mret Selecting
  | Returned => emit EvChainEventUnsubscribe ;; mret Returned
  end.

End Service.

(** ** Observations on worlds and traces *)

(** A non-blocking send on [c] would take the [default] branch. *)
Definition chan_full {V : Type} (c : option (Chan V)) : bool :=
  match c with
  | None => true
  | Some c =>
      negb (ch_closed c) && (ch_recvq c =? 0)%nat
      && (ch_cap c <=? length (ch_buf c))%nat
  end.

Definition chan_closed {V : Type} (c : option (Chan V)) : bool :=
  match c with
  | None => false
  | Some c => ch_closed c
  end.

(** Both sinks of a subscription are open (or nil) in the store. *)
Definition entry_open (w : World) (sub : Subscription) : bool :=
  negb (chan_closed (payloadChans w !! PayloadChan sub))
  && negb (chan_closed (boolChans w !! sub_QuitChan sub)).

(** The registry invariant of the data model: no registered subscription
    holds a closed sink. *)
Definition sinks_open (w : World) : bool :=
  forallb (fun e => entry_open w e.2) (map_to_list (Subscriptions (sds w))).

(** The flag is 1 exactly when the registry has an entry, and 0 otherwise. *)
Definition gate_ok (w : World) : bool :=
  subscribers (sds w) =? (if (size (Subscriptions (sds w)) =? 0)%nat then 0 else 1).

Definition is_quit_for (id : ID) (e : Event) : bool :=
  match e with
  | EvQuit i _ => bool_decide (i = id)
  | _ => false
  end.

Definition is_payload_for (id : ID) (e : Event) : bool :=
  match e with
  | EvPayload i _ _ => bool_decide (i = id)
  | _ => false
  end.

Definition is_delivery_for (id : ID) (e : Event) : bool :=
  match e with
  | EvPayload i _ true => bool_decide (i = id)
  | _ => false
  end.

Definition is_build (e : Event) : bool :=
  match e with
  | EvBuildStateDiff _ _ _ _ => true
  | _ => false
  end.

(** Termination signals attempted on the control sink of [id]. *)
Definition quit_attempts (id : ID) (t : list Event) : nat :=
  length (List.filter (is_quit_for id) t).

(** Payload writes attempted on, and accepted by, the payload sink of [id]. *)
Definition payload_attempts (id : ID) (t : list Event) : nat :=
  length (List.filter (is_payload_for id) t).
Definition deliveries (id : ID) (t : list Event) : list Event :=
  List.filter (is_delivery_for id) t.

(** Calls of [Builder.BuildStateDiff]. *)
Definition builder_calls (t : list Event) : nat :=
  length (List.filter is_build t).

(** The value [halt_if_empty] leaves in the flag, given the registry it
    finds and the flag before. *)
Definition halted (m : gmap string Subscription) (n : Z) : Z :=
  if (size m =? 0)%nat then (if n =? 1 then 0 else n) else n.

(** The events of [id] are the same in both traces. *)
Definition same_events (id : ID) (t t' : list Event) : Prop :=
  quit_attempts id t' = quit_attempts id t
  /\ payload_attempts id t' = payload_attempts id t
  /\ deliveries id t' = deliveries id t.


(** What one broadcast of [payload], from [w] to [w'], did to the
    subscriber [id]: its sink took the payload and it stays registered,
    or its sink took nothing, its control sink was signalled once and it
    is gone from the registry. *)
Definition accepted (id : ID) (payload : Payload) (w w' : World) : Prop :=
  deliveries id (trace w') = deliveries id (trace w) ++ [EvPayload id payload true]
  /\ quit_attempts id (trace w') = quit_attempts id (trace w)
  /\ Subscriptions (sds w') !! id = Subscriptions (sds w) !! id.

Definition evicted (id : ID) (w w' : World) : Prop :=
  deliveries id (trace w') = deliveries id (trace w)
  /\ quit_attempts id (trace w') = S (quit_attempts id (trace w))
  /\ Subscriptions (sds w') !! id = None.

(** What a range loop leaves alone: every field of the service but the
    registry, which can only lose entries, the closed flags of all
    channels, the payload channels that were full, and the calls to the
    builder. *)
Record Frame (w w' : World) : Prop := {
  fr_Mutex : Mutex (sds w') = Mutex (sds w);
  fr_QuitChan : QuitChan (sds w') = QuitChan (sds w);
  fr_lastBlock : lastBlock (sds w') = lastBlock (sds w);
  fr_StreamBlock : StreamBlock (sds w') = StreamBlock (sds w);
  fr_subscribers : subscribers (sds w') = subscribers (sds w);
  fr_pclosed : forall c,
    chan_closed (payloadChans w' !! c) = chan_closed (payloadChans w !! c);
  fr_bclosed : forall c,
    chan_closed (boolChans w' !! c) = chan_closed (boolChans w !! c);
  fr_full : forall c, chan_full (payloadChans w !! c) = true ->
    payloadChans w' !! c = payloadChans w !! c;
  fr_builds : builder_calls (trace w') = builder_calls (trace w);
  fr_sub : forall id, Subscriptions (sds w') !! id = None
                   \/ Subscriptions (sds w') !! id = Subscriptions (sds w) !! id
}.


(** A computation leaves the projection [f] of the world alone, however
    it ends. *)
Definition keeps {A T : Type} (f : World -> T) (m : M A) : Prop :=
  forall w, f (world_of (m w)) = f w.

(** The last-block cache of the world. *)
Definition cached (w : World) : option Block := lastBlock (sds w).

(** [Subscribe] takes the mutex only after it has set the flag; these are
    its two halves, before and from [sds.Lock()]. *)
Definition Subscribe_flag : M unit :=
  log LvlInfo "Subscribing to the statediff service" ;;
  swapped ← atomic_CompareAndSwapInt32 0 1;
  if (swapped : bool)
  then log LvlInfo "State diffing subscription received; beginning statediff processing"
  else mret tt.

Definition Subscribe_register (id : ID) (sub quitChan : chan_ref) : M unit :=
  Lock ;;
  modify_sds (fun s =>
    with_Subscriptions (<[id := mkSubscription sub quitChan]> (Subscriptions s)) s) ;;
  Unlock.

(** ** A small chain to run the service on *)

Module Demo.

(** One of the orders in which Go may visit a map. *)
Definition go_range : MapRange :=
  {| range := map_to_list;
     range_perm := fun m => Permutation_refl (map_to_list m) |}.

Definition genesis : Block := mkBlock [x00] [] 0 [xa0].
Definition block1 : Block := mkBlock [x01] [x00] 1 [xa1].
(** A block that leaves the state root as it was. *)
Definition block2 : Block := mkBlock [x02] [x01] 2 [xa1].
(** A block whose header carries a negative number. *)
Definition block_neg : Block := mkBlock [x09] [x00] (-1) [xa9].

Definition chain : blockChain :=
  {| GetBlockByHash := fun h =>
       if bytes_Equal h (Block_Hash genesis) then Some genesis else None;
     GetReceiptsByHash := fun _ => [] |}.

(** A builder that reports the new root as the one delta when the root
    changed, and no delta when it did not. *)
Definition builder : Builder :=
  {| BuildStateDiff := fun oldRoot newRoot number hash =>
       Ok (mkStateDiff number hash
             (if bytes_Equal oldRoot newRoot then [] else [newRoot])) |}.

(** A builder that leaves the height of the diff at zero. *)
Definition builder_heightless : Builder :=
  {| BuildStateDiff := fun oldRoot newRoot number hash =>
       Ok (mkStateDiff 0 hash [newRoot]) |}.

Definition byte_of_Z (n : Z) : byte :=
  match Byte.of_N (Z.to_N (n mod 256)) with
  | Some b => b
  | None => x00
  end.

(** An encoder that, like RLP, has no encoding for negative integers. *)
Definition encoder : Encoder :=
  {| rlp_EncodeStateDiff := fun sd =>
       if BlockNumber sd <? 0
       then Err "rlp: cannot encode negative big.Int"
       else Ok (byte_of_Z (BlockNumber sd) :: BlockHash sd
                  ++ concat (AccountDeltas sd));
     Block_EncodeRLP := fun b => Ok (Block_Hash b);
     rlp_EncodeReceipts := fun r => Ok (concat r) |}.

(** A service just built, not streaming blocks. *)
Definition fresh : World := NewStateDiffService false.

(** Two subscribers: S1 has room for one payload and one signal; S2
    holds unbuffered channels nobody is receiving from. *)
Definition S1 : Subscription := mkSubscription 2 3.
Definition S2 : Subscription := mkSubscription 4 5.

Definition two_subscribers : World :=
  mkWorld
    (mkService false 1%positive (<["S2" := S2]> (<["S1" := S1]> ∅)) None false 1)
    (<[4%positive := mkChan 0%nat [] 0%nat false]>
       (<[2%positive := mkChan 1%nat [] 0%nat false]> ∅))
    (<[5%positive := mkChan 0%nat [] 0%nat false]>
       (<[3%positive := mkChan 1%nat [] 0%nat false]>
          (<[1%positive := mkChan 0%nat [] 0%nat false]> ∅)))
    [].

(** The same service, configured to stream blocks and receipts. *)
Definition two_subscribers_streaming : World :=
  with_sds (fun s => mkService (Mutex s) (QuitChan s) (Subscriptions s)
                       (lastBlock s) true (subscribers s))
    two_subscribers.

(** The payload of [block1] on top of [genesis]. *)
Definition payload1 : Payload := mkPayload [x01; x01; xa1] [] [].

End Demo.

(** ** Further observations *)

(** A registered subscriber is never behind a closed gate: the flag is 0
    over an empty registry, or it is 1. *)
Definition gate_sound (w : World) : bool :=
  ((subscribers (sds w) =? 0) && (size (Subscriptions (sds w)) =? 0)%nat)
  || (subscribers (sds w) =? 1).

Definition sound (w : World) : Prop := gate_sound w = true.

(** A computation carries [P] from the world it starts in to the world
    it ends in, however it ends. *)
Definition preserves {A : Type} (P : World -> Prop) (m : M A) : Prop :=
  forall w, P w -> P (world_of (m w)).

Definition is_lookup (e : Event) : bool :=
  match e with
  | EvGetBlockByHash _ => true
  | _ => false
  end.

(** Calls of [BlockChain.GetBlockByHash], with the hash asked for. *)
Definition lookups (t : list Event) : list Event := List.filter is_lookup t.

(** The calls of [Builder.BuildStateDiff], with their arguments. *)
Definition builds (t : list Event) : list Event := List.filter is_build t.

(** The events selected by [p], as a projection of the world. *)
Definition filt (p : Event -> bool) (w : World) : list Event :=
  List.filter p (trace w).

(** [p] selects none of the events a broadcast or a log line leaves. *)
Definition off_air (p : Event -> bool) : Prop :=
  (forall lvl msg, p (EvLog lvl msg) = false)
  /\ (forall id payload ok, p (EvPayload id payload ok) = false)
  /\ (forall id ok, p (EvQuit id ok) = false).

(** The two arms of the loop's [select] that end the loop. *)
Definition is_shutdown (c : SelectCase) : bool :=
  match c with
  | RecvChainEvent _ => false
  | RecvErr _ => true
  | RecvQuit => true
  end.

(** What holds of the result and the world when a computation returns;
    nothing is asked of a panic or a park. *)
Definition on_return {A : Type} (Q : A -> World -> Prop) (o : Outcome A) : Prop :=
  match o with
  | Ret a w => Q a w
  | Panic _ _ => True
  | Park _ => True
  end.

(** The loop finds the parent of [currentBlock] in its cache. *)
Definition cache_hit (w : World) (currentBlock : Block) : bool :=
  match lastBlock (sds w) with
  | Some last => bytes_Equal (Block_Hash last) (Block_ParentHash currentBlock)
  | None => false
  end.

Section LoopBody.
Context {builder : Builder} {chain : blockChain} {encoder : Encoder} {order : MapRange}.

(** The body of the chain-event arm from [if parentBlock == nil] on. *)
Definition Loop_tail (currentBlock : Block) (parentBlock : option Block) : M unit :=
  match parentBlock with
  | None => log LvlError "Parent block is nil, skipping this block (%d)"
  | Some parentBlock =>
      err ← processStateDiff currentBlock parentBlock;
      if (err : option GoError) is Some _
      then log LvlError "Error building statediff for block %d; error: "
      else mret tt
  end.

End LoopBody.

(** ** More scenes on the small chain *)

Module Scene.

(** A builder that always fails. *)
Definition builder_failing : Builder :=
  {| BuildStateDiff := fun _ _ _ _ => Err "state trie not available" |}.

(** The two subscribers, after [block1] went through the loop. *)
Definition after_block1 : World :=
  with_sds (with_lastBlock (Some Demo.block1)) Demo.two_subscribers.

(** S1 alone, with room in both its channels. *)
Definition only_S1 : World :=
  mkWorld
    (mkService false 1%positive {[ "S1" := Demo.S1 ]} None false 1)
    {[ 2%positive := mkChan 1%nat [] 0%nat false ]}
    (<[3%positive := mkChan 1%nat [] 0%nat false]>
       {[ 1%positive := mkChan 0%nat [] 0%nat false ]})
    [].

(** S2 alone, on unbuffered channels nobody is receiving from. *)
Definition only_S2 : World :=
  mkWorld
    (mkService false 1%positive {[ "S2" := Demo.S2 ]} None false 1)
    {[ 4%positive := mkChan 0%nat [] 0%nat false ]}
    (<[5%positive := mkChan 0%nat [] 0%nat false]>
       {[ 1%positive := mkChan 0%nat [] 0%nat false ]})
    [].

End Scene.

(** ** Termination signals on the control sinks *)

(** The termination signals attempted on the control sink of [id], in
    order, each with its outcome. *)
Definition quit_events (id : ID) (t : list Event) : list Event :=
  List.filter (is_quit_for id) t.

(** From [w] to [w'] exactly one non-blocking send of [true] was made on
    the control sink of [sub], for [id]: the sink is in the state that
    send leaves it in (the value handed to a waiting receiver or stored
    in the buffer when it was taken, the sink untouched when it was
    not), and the attempt is on record with that outcome. *)
Definition signalled (id : ID) (sub : Subscription) (w w' : World) : Prop :=
  match chansend (boolChans w !! sub_QuitChan sub) true with
  | SendOk c' =>
      boolChans w' !! sub_QuitChan sub = Some c'
      /\ quit_events id (trace w') = quit_events id (trace w) ++ [EvQuit id true]
  | SendWouldBlock =>
      boolChans w' !! sub_QuitChan sub = boolChans w !! sub_QuitChan sub
      /\ quit_events id (trace w') = quit_events id (trace w) ++ [EvQuit id false]
  | SendPanic => False
  end.

(** No other registered subscriber holds the control sink of [sub]. *)
Definition private_control (w : World) (id : ID) (sub : Subscription) : Prop :=
  forall j s, Subscriptions (sds w) !! j = Some s -> j <> id ->
    sub_QuitChan s <> sub_QuitChan sub.

Definition is_error_line (e : Event) : bool :=
  match e with
  | EvLog LvlError _ => true
  | _ => false
  end.

(** Lines logged at error level. *)
Definition error_lines (t : list Event) : nat :=
  length (List.filter is_error_line t).

Module Stalled.

(** S3 cannot take a payload (an unbuffered channel nobody receives from)
    but has room for one termination signal. *)
Definition S3 : Subscription := mkSubscription 4 7.

(** S1, served as before, beside S3. *)
Definition world : World :=
  mkWorld
    (mkService false 1%positive (<["S3" := S3]> (<["S1" := Demo.S1]> ∅)) None false 1)
    (<[4%positive := mkChan 0%nat [] 0%nat false]>
       (<[2%positive := mkChan 1%nat [] 0%nat false]> ∅))
    (<[7%positive := mkChan 1%nat [] 0%nat false]>
       (<[3%positive := mkChan 1%nat [] 0%nat false]>
          (<[1%positive := mkChan 0%nat [] 0%nat false]> ∅)))
    [].

End Stalled.

(** * Proofs *)

#[local] Arguments Nat.ltb : simpl never.
#[local] Arguments Nat.leb : simpl never.
#[local] Arguments Nat.eqb : simpl never.
#[local] Arguments Z.eqb : simpl never.

(** ** Channels *)

Lemma chansend_full {V : Type} (c : option (Chan V)) (v : V) :
  chan_full c = true -> chansend c v = SendWouldBlock.
Proof.
  destruct c as [[cap buf rq cl]|]; cbn; [|done].
  intros Hf. apply andb_prop in Hf as [Hf H3]. apply andb_prop in Hf as [H1 H2].
  destruct cl; [done|]. apply Nat.eqb_eq in H2. subst rq.
  apply Nat.leb_le in H3. cbn.
  destruct (Nat.ltb_spec 0 0); [lia|].
  destruct (Nat.ltb_spec (length buf) cap); [lia|done].
Qed.

Lemma chansend_not_full {V : Type} (c : option (Chan V)) (v : V) :
  chan_closed c = false -> chan_full c = false ->
  exists c', chansend c v = SendOk c' /\ ch_closed c' = false.
Proof.
  destruct c as [[cap buf rq cl]|]; cbn; [|done].
  intros -> Hf. cbn in Hf.
  destruct (Nat.ltb_spec 0 rq); [eauto|].
  destruct (Nat.ltb_spec (length buf) cap); [eauto|].
  exfalso. apply andb_false_iff in Hf as [Hf|Hf].
  - apply Nat.eqb_neq in Hf. lia.
  - apply Nat.leb_gt in Hf. lia.
Qed.

Lemma chansend_closed {V : Type} (c : option (Chan V)) (v : V) :
  chan_closed c = true -> chansend c v = SendPanic.
Proof. destruct c as [[cap buf rq cl]|]; cbn; [|done]. by intros ->. Qed.

(** ** Traces *)

Lemma quit_attempts_app id t1 t2 :
  quit_attempts id (t1 ++ t2) = (quit_attempts id t1 + quit_attempts id t2)%nat.
Proof. unfold quit_attempts. by rewrite List.filter_app, length_app. Qed.

Lemma payload_attempts_app id t1 t2 :
  payload_attempts id (t1 ++ t2)
  = (payload_attempts id t1 + payload_attempts id t2)%nat.
Proof. unfold payload_attempts. by rewrite List.filter_app, length_app. Qed.

Lemma deliveries_app id t1 t2 :
  deliveries id (t1 ++ t2) = deliveries id t1 ++ deliveries id t2.
Proof. unfold deliveries. by rewrite List.filter_app. Qed.

Lemma builder_calls_app t1 t2 :
  builder_calls (t1 ++ t2) = (builder_calls t1 + builder_calls t2)%nat.
Proof. unfold builder_calls. by rewrite List.filter_app, length_app. Qed.


Lemma quit_attempts_snoc id t e :
  quit_attempts id (t ++ [e])
  = (quit_attempts id t + (if is_quit_for id e then 1 else 0))%nat.
Proof. rewrite quit_attempts_app. unfold quit_attempts. cbn. by destruct is_quit_for. Qed.

Lemma payload_attempts_snoc id t e :
  payload_attempts id (t ++ [e])
  = (payload_attempts id t + (if is_payload_for id e then 1 else 0))%nat.
Proof.
  rewrite payload_attempts_app. unfold payload_attempts. cbn.
  by destruct is_payload_for.
Qed.

Lemma deliveries_snoc id t e :
  deliveries id (t ++ [e])
  = deliveries id t ++ (if is_delivery_for id e then [e] else []).
Proof. rewrite deliveries_app. unfold deliveries. cbn. by destruct is_delivery_for. Qed.

Lemma builder_calls_snoc t e :
  builder_calls (t ++ [e]) = (builder_calls t + (if is_build e then 1 else 0))%nat.
Proof. rewrite builder_calls_app. unfold builder_calls. cbn. by destruct is_build. Qed.

#[local] Arguments quit_attempts : simpl never.
#[local] Arguments payload_attempts : simpl never.
#[local] Arguments deliveries : simpl never.
#[local] Arguments builder_calls : simpl never.

Ltac trace_tac :=
  rewrite ?quit_attempts_snoc, ?payload_attempts_snoc, ?deliveries_snoc,
    ?builder_calls_snoc;
  cbn [is_quit_for is_payload_for is_delivery_for is_build];
  repeat case_bool_decide; try congruence;
  rewrite ?app_nil_r; try done; try lia.

(** ** One turn of a range loop *)

Section Proofs.
Context {builder : Builder} {chain : blockChain} {encoder : Encoder} {order : MapRange}.

Ltac run :=
  repeat (cbn -[size] in *;
          unfold mbind, M_bind, mret, M_ret, log, emit, get_sds, modify_sds in * ).

Lemma Frame_refl w : Frame w w.
Proof. split; auto. Qed.

Lemma Frame_trans w1 w2 w3 : Frame w1 w2 -> Frame w2 w3 -> Frame w1 w3.
Proof.
  intros H12 H23. split.
  - by rewrite (fr_Mutex _ _ H23), (fr_Mutex _ _ H12).
  - by rewrite (fr_QuitChan _ _ H23), (fr_QuitChan _ _ H12).
  - by rewrite (fr_lastBlock _ _ H23), (fr_lastBlock _ _ H12).
  - by rewrite (fr_StreamBlock _ _ H23), (fr_StreamBlock _ _ H12).
  - by rewrite (fr_subscribers _ _ H23), (fr_subscribers _ _ H12).
  - intros c. by rewrite (fr_pclosed _ _ H23), (fr_pclosed _ _ H12).
  - intros c. by rewrite (fr_bclosed _ _ H23), (fr_bclosed _ _ H12).
  - intros c Hc. rewrite (fr_full _ _ H23); [by apply (fr_full _ _ H12)|].
    by rewrite (fr_full _ _ H12).
  - by rewrite (fr_builds _ _ H23), (fr_builds _ _ H12).
  - intros id. destruct (fr_sub _ _ H23 id) as [->| ->]; [by left|].
    apply (fr_sub _ _ H12).
Qed.

Lemma lookup_insert_closed {V : Type} (h : gmap positive (Chan V)) ch c c0 :
  ch_closed c = false -> chan_closed (h !! ch) = false ->
  chan_closed (<[ch := c]> h !! c0) = chan_closed (h !! c0).
Proof.
  intros Hc Hh. destruct (decide (ch = c0)) as [->|Hne].
  - by rewrite lookup_insert_eq, Hh.
  - by rewrite lookup_insert_ne.
Qed.

Lemma send_entry_spec payload id sub w :
  entry_open w sub = true ->
  exists w', send_entry payload (id, sub) w = Ret tt w'
    /\ Frame w w'
    /\ (forall j, j <> id ->
          Subscriptions (sds w') !! j = Subscriptions (sds w) !! j
          /\ same_events j (trace w) (trace w'))
    /\ payload_attempts id (trace w') = S (payload_attempts id (trace w))
    /\ (accepted id payload w w' \/ evicted id w w')
    /\ (chan_full (payloadChans w !! PayloadChan sub) = true ->
          evicted id w w').
Proof.
  intros Ho. apply andb_prop in Ho as [Hp Hq].
  apply negb_true_iff in Hp, Hq.
  unfold send_entry, select_send_Payload, select_send_bool.
  destruct (chan_full (payloadChans w !! PayloadChan sub)) eqn:Hfull.
  - run. rewrite (chansend_full _ _ Hfull). run.
    destruct (chan_full (boolChans w !! sub_QuitChan sub)) eqn:Hqf.
    + rewrite (chansend_full _ _ Hqf). run.
      eexists. split; [reflexivity|]. cbn.
      split; [split; cbn; auto; [trace_tac|]|].
      { intros j. destruct (decide (id = j)) as [->|Hne];
          [left; apply lookup_delete_eq | right; by apply lookup_delete_ne]. }
      split; [|split; [trace_tac|]].
      { intros j Hj. split; [by apply lookup_delete_ne|].
        unfold same_events. repeat split; trace_tac. }
      assert (forall w', trace w' = (((trace w ++ [EvPayload id payload false])
                ++ [EvLog LvlInfo "unable to send payload to subscription %s; channel has no receiver"])
                ++ [EvQuit id false])
                ++ [EvLog LvlInfo "unable to close subscription %s; channel has no receiver"] ->
              Subscriptions (sds w') = delete id (Subscriptions (sds w)) ->
              evicted id w w') as Hev.
      { intros w' Ht Hs. unfold evicted. rewrite Ht, Hs.
        split; [trace_tac|]. split; [trace_tac|apply lookup_delete_eq]. }
      split; [right|intros _]; by apply Hev.
    + destruct (chansend_not_full _ true Hq Hqf) as (c' & -> & Hc'). run.
      eexists. split; [reflexivity|]. cbn.
      split; [split; cbn; auto; [|trace_tac|]|].
      { intros c. by apply lookup_insert_closed. }
      { intros j. destruct (decide (id = j)) as [->|Hne];
          [left; apply lookup_delete_eq | right; by apply lookup_delete_ne]. }
      split; [|split; [trace_tac|]].
      { intros j Hj. split; [by apply lookup_delete_ne|].
        unfold same_events. repeat split; trace_tac. }
      assert (forall w', trace w' = (((trace w ++ [EvPayload id payload false])
                ++ [EvLog LvlInfo "unable to send payload to subscription %s; channel has no receiver"])
                ++ [EvQuit id true])
                ++ [EvLog LvlInfo "closing subscription %s"] ->
              Subscriptions (sds w') = delete id (Subscriptions (sds w)) ->
              evicted id w w') as Hev.
      { intros w' Ht Hs. unfold evicted. rewrite Ht, Hs.
        split; [trace_tac|]. split; [trace_tac|apply lookup_delete_eq]. }
      split; [right|intros _]; by apply Hev.
  - run. destruct (chansend_not_full _ payload Hp Hfull) as (c' & -> & Hc'). run.
    eexists. split; [reflexivity|]. cbn.
    split; [split; cbn; auto; [| |trace_tac]|].
    { intros c. by apply lookup_insert_closed. }
    { intros c Hc. apply lookup_insert_ne. intros Heq. rewrite Heq in Hfull.
      congruence. }
    split; [|split; [trace_tac|split; [left|done]]].
    { intros j Hj. split; [done|]. unfold same_events. repeat split; trace_tac. }
    unfold accepted. cbn. split; [trace_tac|]. split; [trace_tac|done].
Qed.

(** A closed payload sink in the registry is the one thing that stops a
    broadcast half way: the send panics. *)
Lemma send_entry_closed_sink_panics payload id sub w :
  chan_closed (payloadChans w !! PayloadChan sub) = true ->
  send_entry payload (id, sub) w = Panic "send on closed channel" w.
Proof.
  intros Hc. unfold send_entry, select_send_Payload. run.
  by rewrite (chansend_closed _ _ Hc).
Qed.

Lemma Frame_entry_open w w' sub :
  Frame w w' -> entry_open w' sub = entry_open w sub.
Proof.
  intros F. unfold entry_open.
  by rewrite (fr_pclosed _ _ F), (fr_bclosed _ _ F).
Qed.

Lemma same_events_refl id t : same_events id t t.
Proof. by repeat split. Qed.

Lemma same_events_trans id t1 t2 t3 :
  same_events id t1 t2 -> same_events id t2 t3 -> same_events id t1 t3.
Proof. intros (?&?&?) (?&?&?). repeat split; congruence. Qed.

(** ** The range loop of [send] *)

Lemma send_range_spec payload l : forall w,
  NoDup (l.*1) ->
  Forall (fun e => entry_open w e.2 = true) l ->
  exists w', send_range payload l w = Ret tt w'
    /\ Frame w w'
    /\ (forall j, j ∉ l.*1 ->
          Subscriptions (sds w') !! j = Subscriptions (sds w) !! j
          /\ same_events j (trace w) (trace w'))
    /\ (forall id sub, (id, sub) ∈ l ->
          payload_attempts id (trace w') = S (payload_attempts id (trace w))
          /\ (accepted id payload w w' \/ evicted id w w')
          /\ (chan_full (payloadChans w !! PayloadChan sub) = true ->
                evicted id w w')).
Proof.
  induction l as [|[i s] rest IH]; intros w Hnd Hopen.
  - exists w. split; [done|]. split; [apply Frame_refl|].
    split; [intros; split; [done|apply same_events_refl]|].
    intros id sub Hin. by apply elem_of_nil in Hin.
  - cbn in Hnd. apply NoDup_cons in Hnd as [Hi Hnd].
    apply Forall_cons in Hopen as [Hs Hopen]. cbn in Hs.
    destruct (send_entry_spec payload i s w Hs)
      as (w1 & Hrun1 & F1 & Hother1 & Hpay1 & Hout1 & Hfull1).
    destruct (IH w1 Hnd) as (w2 & Hrun2 & F2 & Hother2 & Hin2).
    { eapply Forall_impl; [exact Hopen|]. intros e He.
      by rewrite (Frame_entry_open _ _ _ F1). }
    exists w2. split.
    { cbn [send_range]. unfold mbind, M_bind. by rewrite Hrun1. }
    split; [by eapply Frame_trans|]. split.
    + intros j Hj. cbn in Hj. apply not_elem_of_cons in Hj as [Hji Hj].
      destruct (Hother1 j Hji) as [Hs1 He1].
      destruct (Hother2 j Hj) as [Hs2 He2].
      split; [congruence|by eapply same_events_trans].
    + intros id sub Hin. apply elem_of_cons in Hin as [Heq|Hin].
      * injection Heq as -> ->.
        destruct (Hother2 i Hi) as [Hs2 (Hq2 & Hp2 & Hd2)].
        assert (forall w0, evicted i w0 w1 -> evicted i w0 w2) as Hev.
        { intros w0 (? & ? & ?). repeat split; congruence. }
        split; [congruence|]. split; [|by auto].
        destruct Hout1 as [(? & ? & ?)|?]; [left|right; by auto].
        repeat split; congruence.
      * assert (id <> i) as Hne.
        { intros ->. apply Hi. apply list_elem_of_fmap. by exists (i, sub). }
        destruct (Hother1 id Hne) as [Hs1 (Hq1 & Hp1 & Hd1)].
        destruct (Hin2 id sub Hin) as (Hp2 & Hout2 & Hf2).
        assert (forall w0, evicted id w1 w0 -> evicted id w w0) as Hev.
        { intros w0 (? & ? & ?). repeat split; congruence. }
        split; [congruence|]. split.
        { destruct Hout2 as [(? & ? & ?)|?]; [left|right; by auto].
          repeat split; congruence. }
        intros Hf. apply Hev, Hf2. by rewrite (fr_full _ _ F1 _ Hf).
Qed.

(** ** Go's [range] over the registry *)

Lemma range_elem (m : gmap string Subscription) id sub :
  (id, sub) ∈ range m <-> m !! id = Some sub.
Proof. rewrite (range_perm m). apply elem_of_map_to_list. Qed.

Lemma range_NoDup (m : gmap string Subscription) : NoDup ((range m).*1).
Proof. rewrite (range_perm m). apply NoDup_fst_map_to_list. Qed.

Lemma range_keys (m : gmap string Subscription) id :
  id ∉ (range m).*1 <-> m !! id = None.
Proof.
  rewrite list_elem_of_fmap. split.
  - intros Hn. destruct (m !! id) as [sub|] eqn:Hm; [|done].
    exfalso. apply Hn. exists (id, sub). split; [done|]. by apply range_elem.
  - intros Hm [[j sub] [-> Hin]]. apply range_elem in Hin. cbn in Hm. congruence.
Qed.

Lemma sinks_open_range w w0 :
  sinks_open w = true ->
  Subscriptions (sds w0) = Subscriptions (sds w) ->
  payloadChans w0 = payloadChans w -> boolChans w0 = boolChans w ->
  Forall (fun e => entry_open w0 e.2 = true) (range (Subscriptions (sds w))).
Proof.
  unfold sinks_open. rewrite forallb_forall. intros Hall _ Hp Hb.
  apply Forall_forall. intros e He.
  rewrite (range_perm _) in He. apply list_elem_of_In in He.
  specialize (Hall e He). unfold entry_open in *. by rewrite Hp, Hb.
Qed.

(** ** [halt_if_empty], [send] and [close] as a whole *)

Lemma halt_if_empty_spec w :
  exists t, halt_if_empty w
    = Ret tt (with_trace (trace w ++ t)
               (with_sds (with_subscribers
                  (halted (Subscriptions (sds w)) (subscribers (sds w)))) w))
    /\ (forall id, same_events id (trace w) (trace w ++ t))
    /\ builder_calls (trace w ++ t) = builder_calls (trace w).
Proof.
  unfold halt_if_empty, halted, atomic_CompareAndSwapInt32. run.
  destruct (size (Subscriptions (sds w)) =? 0)%nat.
  - run. destruct (Z.eqb_spec (subscribers (sds w)) 1) as [Heq|Hne]; run.
    + eexists [_]. split; [done|]. split; [|trace_tac].
      intros id. repeat split; trace_tac.
    + exists []. rewrite app_nil_r. destruct w as [[] ? ? ?]. split; [done|].
      split; [|done]. intros id. apply same_events_refl.
  - exists []. rewrite app_nil_r. destruct w as [[] ? ? ?]. split; [done|].
    split; [|done]. intros id. apply same_events_refl.
Qed.

Lemma send_spec payload w :
  Mutex (sds w) = false ->
  sinks_open w = true ->
  exists w', send payload w = Ret tt w'
    /\ Mutex (sds w') = false
    /\ QuitChan (sds w') = QuitChan (sds w)
    /\ lastBlock (sds w') = lastBlock (sds w)
    /\ StreamBlock (sds w') = StreamBlock (sds w)
    /\ subscribers (sds w')
       = halted (Subscriptions (sds w')) (subscribers (sds w))
    /\ builder_calls (trace w') = builder_calls (trace w)
    /\ (forall id, Subscriptions (sds w') !! id = None
                 \/ Subscriptions (sds w') !! id = Subscriptions (sds w) !! id)
    /\ (forall id, Subscriptions (sds w) !! id = None ->
          same_events id (trace w) (trace w'))
    /\ (forall id sub, Subscriptions (sds w) !! id = Some sub ->
          payload_attempts id (trace w') = S (payload_attempts id (trace w))
          /\ (accepted id payload w w' \/ evicted id w w')
          /\ (chan_full (payloadChans w !! PayloadChan sub) = true ->
                evicted id w w')).
Proof.
  intros Hm Hopen. unfold send, Lock. run. rewrite Hm. run.
  set (w0 := with_sds (with_Mutex true) w).
  destruct (send_range_spec payload (range (Subscriptions (sds w))) w0)
    as (w1 & Hrun & F & Hother & Hin).
  { apply range_NoDup. }
  { by apply sinks_open_range. }
  rewrite Hrun. subst w0. cbn in F, Hother, Hin.
  destruct (halt_if_empty_spec w1) as (t & Hhalt & Hsame & Hb).
  rewrite Hhalt. unfold Unlock. cbn.
  rewrite (fr_Mutex _ _ F). cbn.
  eexists. split; [reflexivity|]. cbn.
  split; [done|]. split; [apply (fr_QuitChan _ _ F)|].
  split; [apply (fr_lastBlock _ _ F)|]. split; [apply (fr_StreamBlock _ _ F)|].
  split; [by rewrite (fr_subscribers _ _ F)|].
  split; [rewrite Hb; apply (fr_builds _ _ F)|].
  split; [apply (fr_sub _ _ F)|]. split.
  - intros id Hid. eapply same_events_trans; [|apply Hsame].
    apply Hother. by apply range_keys.
  - intros id sub Hid. apply range_elem in Hid.
    destruct (Hin id sub Hid) as (Hp & Hout & Hf).
    destruct (Hsame id) as (Hq' & Hp' & Hd').
    unfold accepted, evicted in *. cbn in *.
    split; [congruence|]. split.
    + destruct Hout as [(? & ? & ?)|(? & ? & ?)]; [left|right];
        repeat split; congruence.
    + intros Hfull. destruct (Hf Hfull) as (? & ? & ?).
      repeat split; congruence.
Qed.

Lemma close_entry_spec id sub w :
  chan_closed (boolChans w !! sub_QuitChan sub) = false ->
  exists w', close_entry (id, sub) w = Ret tt w'
    /\ Frame w w'
    /\ payloadChans w' = payloadChans w
    /\ (forall j, j <> id ->
          Subscriptions (sds w') !! j = Subscriptions (sds w) !! j
          /\ same_events j (trace w) (trace w'))
    /\ Subscriptions (sds w') !! id = None
    /\ quit_attempts id (trace w') = S (quit_attempts id (trace w))
    /\ payload_attempts id (trace w') = payload_attempts id (trace w).
Proof.
  intros Hq. unfold close_entry, select_send_bool. run.
  assert (forall m : gmap string Subscription, forall j,
            delete id m !! j = None \/ delete id m !! j = m !! j) as Hdel.
  { intros m j. destruct (decide (id = j)) as [->|Hne];
      [left; apply lookup_delete_eq | right; by apply lookup_delete_ne]. }
  destruct (chan_full (boolChans w !! sub_QuitChan sub)) eqn:Hqf.
  - rewrite (chansend_full _ _ Hqf). run.
    eexists. split; [reflexivity|]. cbn.
    split; [split; cbn; auto; trace_tac|]. split; [done|].
    split; [|split; [apply lookup_delete_eq|split; trace_tac]].
    intros j Hj. split; [by apply lookup_delete_ne|].
    unfold same_events. repeat split; trace_tac.
  - destruct (chansend_not_full _ true Hq Hqf) as (c' & -> & Hc'). run.
    eexists. split; [reflexivity|]. cbn.
    split; [split; cbn; auto; [|trace_tac]|].
    { intros c. by apply lookup_insert_closed. }
    split; [done|].
    split; [|split; [apply lookup_delete_eq|split; trace_tac]].
    intros j Hj. split; [by apply lookup_delete_ne|].
    unfold same_events. repeat split; trace_tac.
Qed.

Lemma close_range_spec l : forall w,
  NoDup (l.*1) ->
  Forall (fun e => entry_open w e.2 = true) l ->
  exists w', close_range l w = Ret tt w'
    /\ Frame w w'
    /\ payloadChans w' = payloadChans w
    /\ (forall j, j ∉ l.*1 ->
          Subscriptions (sds w') !! j = Subscriptions (sds w) !! j
          /\ same_events j (trace w) (trace w'))
    /\ (forall id, id ∈ l.*1 ->
          Subscriptions (sds w') !! id = None
          /\ quit_attempts id (trace w') = S (quit_attempts id (trace w))
          /\ payload_attempts id (trace w') = payload_attempts id (trace w)).
Proof.
  induction l as [|[i s] rest IH]; intros w Hnd Hopen.
  - exists w. split; [done|]. split; [apply Frame_refl|]. split; [done|].
    split; [intros; split; [done|apply same_events_refl]|].
    intros id Hin. by apply elem_of_nil in Hin.
  - cbn in Hnd. apply NoDup_cons in Hnd as [Hi Hnd].
    apply Forall_cons in Hopen as [Hs Hopen]. cbn in Hs.
    apply andb_prop in Hs as [_ Hs]. apply negb_true_iff in Hs.
    destruct (close_entry_spec i s w Hs)
      as (w1 & Hrun1 & F1 & Hpc1 & Hother1 & Hgone1 & Hq1 & Hp1).
    destruct (IH w1 Hnd) as (w2 & Hrun2 & F2 & Hpc2 & Hother2 & Hin2).
    { eapply Forall_impl; [exact Hopen|]. intros e He.
      by rewrite (Frame_entry_open _ _ _ F1). }
    exists w2. split.
    { cbn [close_range]. unfold mbind, M_bind. by rewrite Hrun1. }
    split; [by eapply Frame_trans|]. split; [congruence|]. split.
    + intros j Hj. cbn in Hj. apply not_elem_of_cons in Hj as [Hji Hj].
      destruct (Hother1 j Hji) as [Hs1 He1].
      destruct (Hother2 j Hj) as [Hs2 He2].
      split; [congruence|by eapply same_events_trans].
    + intros id Hin. cbn in Hin. apply elem_of_cons in Hin as [->|Hin].
      * destruct (Hother2 i Hi) as [Hs2 (Hq2 & Hp2 & Hd2)].
        repeat split; congruence.
      * assert (id <> i) as Hne by (intros ->; contradiction).
        destruct (Hother1 id Hne) as [Hs1 (Hq1' & Hp1' & Hd1')].
        destruct (Hin2 id Hin) as (? & ? & ?).
        repeat split; congruence.
Qed.

Lemma close_spec w :
  Mutex (sds w) = false ->
  sinks_open w = true ->
  exists w', close w = Ret tt w'
    /\ Mutex (sds w') = false
    /\ Subscriptions (sds w') = ∅
    /\ subscribers (sds w') = subscribers (sds w)
    /\ lastBlock (sds w') = lastBlock (sds w)
    /\ payloadChans w' = payloadChans w
    /\ builder_calls (trace w') = builder_calls (trace w)
    /\ (forall id, payload_attempts id (trace w') = payload_attempts id (trace w))
    /\ (forall id, quit_attempts id (trace w')
          = if Subscriptions (sds w) !! id is Some _
            then S (quit_attempts id (trace w))
            else quit_attempts id (trace w)).
Proof.
  intros Hm Hopen. unfold close, Lock. run. rewrite Hm. run.
  set (w0 := with_sds (with_Mutex true) w).
  destruct (close_range_spec (range (Subscriptions (sds w))) w0)
    as (w1 & Hrun & F & Hpc & Hother & Hin).
  { apply range_NoDup. }
  { by apply sinks_open_range. }
  rewrite Hrun. subst w0. cbn in F, Hother, Hin, Hpc.
  unfold Unlock. rewrite (fr_Mutex _ _ F). cbn.
  eexists. split; [reflexivity|]. cbn.
  assert (forall id, Subscriptions (sds w) !! id = None \/ id ∈ (range (Subscriptions (sds w))).*1) as Hcase.
  { intros id. destruct (decide (id ∈ (range (Subscriptions (sds w))).*1)); [by right|].
    left. by apply range_keys. }
  split; [done|]. split.
  { apply map_eq. intros id. rewrite lookup_empty.
    destruct (Hcase id) as [Hn|Hi].
    - apply range_keys in Hn as Hn'. destruct (Hother id Hn') as [-> _]. done.
    - by destruct (Hin id Hi). }
  split; [apply (fr_subscribers _ _ F)|]. split; [apply (fr_lastBlock _ _ F)|].
  split; [done|]. split; [apply (fr_builds _ _ F)|]. split.
  - intros id. destruct (Hcase id) as [Hn|Hi].
    + apply range_keys in Hn. by destruct (Hother id Hn) as [_ (? & ? & ?)].
    + by destruct (Hin id Hi) as (? & ? & ?).
  - intros id. destruct (Hcase id) as [Hn|Hi].
    + rewrite Hn. apply range_keys in Hn.
      by destruct (Hother id Hn) as [_ (? & ? & ?)].
    + destruct (Hin id Hi) as (? & ? & ?).
      destruct (Subscriptions (sds w) !! id) eqn:Hl; [done|].
      apply range_keys in Hl. contradiction.
Qed.

(** ** What never touches the last-block cache *)

Lemma keeps_ret {A T : Type} (f : World -> T) (a : A) : keeps f (mret a).
Proof. by intros w. Qed.

Lemma keeps_bind {A B T : Type} (f : World -> T) (m : M A) (k : A -> M B) :
  keeps f m -> (forall a, keeps f (k a)) -> keeps f (m ≫= k).
Proof.
  intros Hm Hk w. unfold mbind, M_bind. specialize (Hm w).
  destruct (m w) as [a w1|msg w1|w1]; cbn in *; [|done..].
  by rewrite Hk.
Qed.

Lemma keeps_emit e : keeps cached (emit e).
Proof. by intros w. Qed.

Lemma keeps_log lvl msg : keeps cached (log lvl msg).
Proof. by intros w. Qed.

Lemma keeps_get_sds : keeps cached get_sds.
Proof. by intros w. Qed.

Lemma keeps_Lock : keeps cached Lock.
Proof. intros w. unfold Lock. by destruct (Mutex (sds w)). Qed.

Lemma keeps_Unlock : keeps cached Unlock.
Proof. intros w. unfold Unlock. by destruct (Mutex (sds w)). Qed.

Lemma keeps_CompareAndSwap old new :
  keeps cached (atomic_CompareAndSwapInt32 old new).
Proof.
  intros w. unfold atomic_CompareAndSwapInt32.
  by destruct (subscribers (sds w) =? old).
Qed.

Lemma keeps_select_send_Payload ch v : keeps cached (select_send_Payload ch v).
Proof. intros w. unfold select_send_Payload. by destruct chansend. Qed.

Lemma keeps_select_send_bool ch v : keeps cached (select_send_bool ch v).
Proof. intros w. unfold select_send_bool. by destruct chansend. Qed.

Lemma keeps_set_Subscriptions (g : Service -> gmap string Subscription) :
  keeps cached (modify_sds (fun s => with_Subscriptions (g s) s)).
Proof. by intros w. Qed.

Create HintDb keeps.
#[local] Hint Resolve keeps_ret keeps_emit keeps_log keeps_get_sds keeps_Lock
  keeps_Unlock keeps_CompareAndSwap keeps_select_send_Payload
  keeps_select_send_bool keeps_set_Subscriptions : keeps.

Ltac keeps_tac :=
  repeat first
    [ progress auto with keeps
    | apply keeps_bind
    | match goal with
      | |- forall _, _ => intro
      | |- keeps _ (if ?b then _ else _) => destruct b
      | |- keeps _ (match ?x with _ => _ end) => destruct x
      end ].

Lemma keeps_halt_if_empty : keeps cached halt_if_empty.
Proof. unfold halt_if_empty. keeps_tac. Qed.

Lemma keeps_send_entry payload entry : keeps cached (send_entry payload entry).
Proof. destruct entry as [id sub]. unfold send_entry. keeps_tac. Qed.

Lemma keeps_send_range payload l : keeps cached (send_range payload l).
Proof.
  induction l as [|e rest IH]; cbn [send_range]; [apply keeps_ret|].
  apply keeps_bind; [apply keeps_send_entry|done].
Qed.

Lemma keeps_send payload : keeps cached (send payload).
Proof.
  unfold send. pose proof keeps_send_range. pose proof keeps_halt_if_empty.
  keeps_tac.
Qed.

Lemma keeps_processStateDiff cur par : keeps cached (processStateDiff cur par).
Proof.
  unfold processStateDiff. pose proof keeps_send.
  keeps_tac.
Qed.

(** ** The dispatch loop *)

Lemma Loop_chainEvent_gate_inactive chainEvent w :
  subscribers (sds w) = 0 ->
  exists w', Loop_chainEvent chainEvent w = Ret tt w'
    /\ sds w' = sds w /\ payloadChans w' = payloadChans w
    /\ boolChans w' = boolChans w
    /\ builder_calls (trace w') = builder_calls (trace w).
Proof.
  intros H0. unfold Loop_chainEvent, atomic_LoadInt32. run. rewrite H0. run.
  eexists. split; [reflexivity|]. cbn. repeat split. trace_tac.
Qed.

Lemma Loop_for_gate_inactive chainEvents : forall w,
  subscribers (sds w) = 0 ->
  exists w', Loop_for (RecvChainEvent <$> chainEvents) w = Ret Selecting w'
    /\ sds w' = sds w /\ payloadChans w' = payloadChans w
    /\ boolChans w' = boolChans w
    /\ builder_calls (trace w') = builder_calls (trace w).
Proof.
  induction chainEvents as [|ev rest IH]; intros w H0.
  - by exists w.
  - destruct (Loop_chainEvent_gate_inactive ev w H0)
      as (w1 & Hrun1 & Hs1 & Hp1 & Hb1 & Hc1).
    destruct (IH w1) as (w2 & Hrun2 & Hs2 & Hp2 & Hb2 & Hc2); [by rewrite Hs1|].
    exists w2. split; [|repeat split; congruence].
    cbn [fmap list_fmap Loop_for Loop_select]. unfold mbind, M_bind at 1 2.
    rewrite Hrun1. cbn. exact Hrun2.
Qed.

(** C1. While the subscriber flag is zero, every chain event the loop
    receives is discarded: after any sequence of such events the loop is
    back in its [select], the service and all channels are as before, and
    [Builder.BuildStateDiff] has been called no more often than before. *)
Theorem Loop_without_subscribers_never_builds chainEvents w :
  subscribers (sds w) = 0 ->
  exists w', Loop (RecvChainEvent <$> chainEvents) w = Ret Selecting w'
    /\ builder_calls (trace w') = builder_calls (trace w)
    /\ sds w' = sds w
    /\ payloadChans w' = payloadChans w
    /\ boolChans w' = boolChans w.
Proof.
  intros H0. unfold Loop. run.
  destruct (Loop_for_gate_inactive chainEvents
              (with_trace (trace w ++ [EvSubscribeChainEvent]) w) H0)
    as (w1 & Hrun & Hs & Hp & Hb & Hc).
  rewrite Hrun. exists w1. split; [done|]. cbn in *.
  split; [|done]. rewrite Hc. trace_tac.
Qed.

(** C2. When the diff the builder returned encodes to exactly the bytes
    of the empty diff of the current block, [processStateDiff] returns
    without calling [send]: the service, the registry and every channel
    are untouched and no write to any subscriber is attempted. *)
Theorem processStateDiff_suppresses_empty_diff currentBlock parentBlock w
    stateDiff stateDiffRlp :
  BuildStateDiff (Block_Root parentBlock) (Block_Root currentBlock)
    (Block_Number currentBlock) (Block_Hash currentBlock) = Ok stateDiff ->
  rlp_EncodeStateDiff stateDiff = Ok stateDiffRlp ->
  getEmptyStateDiffRlpForBlock currentBlock = Ok stateDiffRlp ->
  exists err w', processStateDiff currentBlock parentBlock w = Ret err w'
    /\ sds w' = sds w
    /\ payloadChans w' = payloadChans w
    /\ boolChans w' = boolChans w
    /\ (forall id, same_events id (trace w) (trace w')).
Proof.
  intros Hbuild Henc Hempty. unfold processStateDiff. run.
  rewrite Hbuild, Henc. run.
  assert (forall p, StateDiffRlp p = stateDiffRlp ->
            isEmptyPayload p currentBlock = (true, None)) as Hcheck.
  { intros p Hp. unfold isEmptyPayload. rewrite Hempty, Hp.
    unfold reflect_DeepEqual. by rewrite bool_decide_eq_true_2. }
  destruct (StreamBlock (sds w)); run.
  - destruct (Block_EncodeRLP currentBlock) as [blockRlp|e]; run.
    + destruct (rlp_EncodeReceipts _) as [receiptsRlp|e]; run.
      * rewrite Hcheck by done. run.
        eexists _, _. split; [reflexivity|]. cbn. repeat split; trace_tac.
      * eexists _, _. split; [reflexivity|]. cbn. repeat split; trace_tac.
    + eexists _, _. split; [reflexivity|]. cbn. repeat split; trace_tac.
  - rewrite Hcheck by done. run.
    eexists _, _. split; [reflexivity|]. cbn. repeat split; trace_tac.
Qed.

(** ** The registry operations *)

Lemma Subscribe_spec id sub quitChan w :
  Mutex (sds w) = false ->
  exists w', Subscribe id sub quitChan w = Ret tt w'
    /\ Mutex (sds w') = false
    /\ Subscriptions (sds w')
       = <[id := mkSubscription sub quitChan]> (Subscriptions (sds w))
    /\ subscribers (sds w')
       = (if subscribers (sds w) =? 0 then 1 else subscribers (sds w))
    /\ payloadChans w' = payloadChans w
    /\ boolChans w' = boolChans w.
Proof.
  intros Hm. unfold Subscribe, atomic_CompareAndSwapInt32, Lock, Unlock. run.
  destruct (subscribers (sds w) =? 0); run; rewrite Hm; run; eauto 10.
Qed.

Lemma Subscribe_parks id sub quitChan w :
  Mutex (sds w) = true ->
  exists w', Subscribe id sub quitChan w = Park w'.
Proof.
  intros Hm. unfold Subscribe, atomic_CompareAndSwapInt32, Lock. run.
  destruct (subscribers (sds w) =? 0); run; rewrite Hm; eauto.
Qed.

Lemma Unsubscribe_missing id w :
  Mutex (sds w) = false ->
  Subscriptions (sds w) !! id = None ->
  exists err w', Unsubscribe id w = Ret (Some err) w'
    /\ Mutex (sds w') = true
    /\ Subscriptions (sds w') = Subscriptions (sds w)
    /\ subscribers (sds w') = subscribers (sds w)
    /\ payloadChans w' = payloadChans w
    /\ boolChans w' = boolChans w.
Proof.
  intros Hm Hid. unfold Unsubscribe, Lock. run. rewrite Hm. run.
  rewrite Hid. run. eauto 10.
Qed.

Lemma Unsubscribe_present id w :
  Mutex (sds w) = false ->
  is_Some (Subscriptions (sds w) !! id) ->
  exists w', Unsubscribe id w = Ret None w'
    /\ Mutex (sds w') = false
    /\ Subscriptions (sds w') = delete id (Subscriptions (sds w))
    /\ subscribers (sds w')
       = halted (delete id (Subscriptions (sds w))) (subscribers (sds w))
    /\ payloadChans w' = payloadChans w
    /\ boolChans w' = boolChans w.
Proof.
  intros Hm [sub Hid]. unfold Unsubscribe, Lock. run. rewrite Hm. run.
  rewrite Hid. run.
  match goal with |- context [halt_if_empty ?w0] =>
    destruct (halt_if_empty_spec w0) as (t & -> & _) end.
  unfold Unlock. cbn. eauto 10.
Qed.

(** ** The activity gate *)

Lemma gate_ok_iff w :
  gate_ok w = true <->
  subscribers (sds w)
  = (if (size (Subscriptions (sds w)) =? 0)%nat then 0 else 1).
Proof. unfold gate_ok. apply Z.eqb_eq. Qed.

Lemma size_eqb_empty (m : gmap string Subscription) :
  (size m =? 0)%nat = true <-> m = ∅.
Proof. rewrite Nat.eqb_eq. apply map_size_empty_iff. Qed.

Lemma halted_empty (m : gmap string Subscription) n :
  n = 0 \/ n = 1 -> m = ∅ -> halted m n = 0.
Proof.
  intros Hn ->. unfold halted. rewrite map_size_empty.
  destruct Hn as [-> | ->]; done.
Qed.

Lemma halted_gate (m m' : gmap string Subscription) n :
  n = (if (size m =? 0)%nat then 0 else 1) ->
  (forall id, m' !! id = None \/ m' !! id = m !! id) ->
  halted m' n = (if (size m' =? 0)%nat then 0 else 1).
Proof.
  intros Hn Hsub. unfold halted.
  destruct (size m' =? 0)%nat eqn:Hm'.
  - subst n. by destruct (size m =? 0)%nat.
  - destruct (size m =? 0)%nat eqn:Hm; [|done].
    apply size_eqb_empty in Hm. subst m.
    assert (m' = ∅) as ->.
    { apply map_eq. intros id. rewrite lookup_empty.
      destruct (Hsub id) as [?|Hid]; [done|by rewrite Hid, lookup_empty]. }
    by rewrite map_size_empty in Hm'.
Qed.

(** ** The control sinks during a range loop *)

Lemma chansend_default_full {V : Type} (c : option (Chan V)) (v : V) :
  chansend c v = SendWouldBlock -> chan_full c = true.
Proof.
  destruct c as [[cap buf rq cl]|]; cbn; [|done].
  destruct cl; [done|].
  destruct (Nat.ltb_spec 0 rq); [done|].
  destruct (Nat.ltb_spec (length buf) cap); [done|]. intros _. cbn.
  apply andb_true_iff. split; [apply Nat.eqb_eq | apply Nat.leb_le]; lia.
Qed.

Lemma quit_events_snoc id t e :
  quit_events id (t ++ [e])
  = quit_events id t ++ (if is_quit_for id e then [e] else []).
Proof.
  unfold quit_events. rewrite List.filter_app. cbn. by destruct is_quit_for.
Qed.

#[local] Arguments quit_events : simpl never.

Lemma quit_attempts_events id t : quit_attempts id t = length (quit_events id t).
Proof. done. Qed.

Lemma accepted_not_evicted id payload w w' :
  accepted id payload w w' -> evicted id w w' -> False.
Proof.
  intros (Hd & _) (Hd' & _). rewrite Hd' in Hd.
  apply (f_equal length) in Hd. rewrite length_app in Hd. cbn in Hd. lia.
Qed.

(** What one turn of the loop of [send] does to the control sinks. *)
Lemma send_entry_control payload i s w w1 :
  send_entry payload (i, s) w = Ret tt w1 ->
  (forall c, sub_QuitChan s <> c -> boolChans w1 !! c = boolChans w !! c)
  /\ (forall j, j <> i -> quit_events j (trace w1) = quit_events j (trace w))
  /\ ((accepted i payload w w1 /\ boolChans w1 = boolChans w)
      \/ (evicted i w w1 /\ signalled i s w w1)).
Proof.
  unfold send_entry, select_send_Payload, select_send_bool. run.
  destruct (chansend (payloadChans w !! PayloadChan s) payload) as [c0| |] eqn:Hs;
    run; [| |done].
  - intros [= <-]. cbn. split; [done|]. split.
    + intros j Hj. rewrite !quit_events_snoc. cbn. by rewrite !app_nil_r.
    + left. split; [|done]. unfold accepted. cbn. repeat split; trace_tac.
  - unfold signalled.
    destruct (chansend (boolChans w !! sub_QuitChan s) true) as [c1| |] eqn:Hq;
      run; [| |done]; intros [= <-]; cbn.
    + split; [intros c Hc; by apply lookup_insert_ne|]. split.
      * intros j Hj. rewrite !quit_events_snoc. cbn.
        rewrite bool_decide_eq_false_2 by congruence. by rewrite !app_nil_r.
      * right. split.
        { unfold evicted. cbn. split; [trace_tac|]. split; [trace_tac|].
          apply lookup_delete_eq. }
        split; [apply lookup_insert_eq|].
        rewrite !quit_events_snoc. cbn.
        rewrite bool_decide_eq_true_2 by done. by rewrite !app_nil_r.
    + split; [done|]. split.
      * intros j Hj. rewrite !quit_events_snoc. cbn.
        rewrite bool_decide_eq_false_2 by congruence. by rewrite !app_nil_r.
      * right. split.
        { unfold evicted. cbn. split; [trace_tac|]. split; [trace_tac|].
          apply lookup_delete_eq. }
        split; [done|].
        rewrite !quit_events_snoc. cbn.
        rewrite bool_decide_eq_true_2 by done. by rewrite !app_nil_r.
Qed.

Lemma send_range_control payload id sub l : forall w w',
  send_range payload l w = Ret tt w' ->
  NoDup (l.*1) ->
  Forall (fun e => entry_open w e.2 = true) l ->
  (forall j s, (j, s) ∈ l -> j <> id -> sub_QuitChan s <> sub_QuitChan sub) ->
  (id ∉ l.*1 ->
     boolChans w' !! sub_QuitChan sub = boolChans w !! sub_QuitChan sub
     /\ quit_events id (trace w') = quit_events id (trace w))
  /\ ((id, sub) ∈ l ->
      (accepted id payload w w'
       /\ boolChans w' !! sub_QuitChan sub = boolChans w !! sub_QuitChan sub)
      \/ (evicted id w w' /\ signalled id sub w w')).
Proof.
  induction l as [|[i s] rest IH]; intros w w' Hrun Hnd Hopen Hpriv.
  - cbn in Hrun. injection Hrun as <-. split; [done|].
    intros Hin. by apply elem_of_nil in Hin.
  - cbn in Hnd. apply NoDup_cons in Hnd as [Hi Hnd].
    apply Forall_cons in Hopen as [Hs Hopen]. cbn in Hs.
    destruct (send_entry_spec payload i s w Hs)
      as (w1 & Hrun1 & F1 & Hother1 & _).
    cbn [send_range] in Hrun. unfold mbind, M_bind in Hrun.
    rewrite Hrun1 in Hrun.
    destruct (send_entry_control payload i s w w1 Hrun1)
      as (Hframe & Hquiet & Hcase).
    assert (Forall (fun e => entry_open w1 e.2 = true) rest) as Hopen1.
    { eapply Forall_impl; [exact Hopen|]. intros e He.
      by rewrite (Frame_entry_open _ _ _ F1). }
    destruct (IH w1 w' Hrun Hnd Hopen1) as [IHout IHin].
    { intros j s' Hin. apply Hpriv. by right. }
    split.
    + intros Hout. cbn in Hout. apply not_elem_of_cons in Hout as [Hne Hout].
      destruct (IHout Hout) as [-> ->]. split.
      * apply Hframe. apply (Hpriv i s); [by left|done].
      * by apply Hquiet.
    + intros Hin. apply elem_of_cons in Hin as [Heq|Hin].
      * injection Heq as <- <-.
        destruct (IHout Hi) as [Hb2 Hq2].
        destruct (send_range_spec payload rest w1 Hnd Hopen1)
          as (w2 & Hrun2 & _ & Hother2 & _).
        rewrite Hrun in Hrun2. injection Hrun2 as <-.
        destruct (Hother2 id Hi) as [Hs2 (Hqa & Hpa & Hda)].
        destruct Hcase as [[(? & ? & ?) Hsame]|[(? & ? & ?) Hsig]]; [left|right].
        { split; [repeat split; congruence|]. by rewrite Hb2, Hsame. }
        split; [repeat split; congruence|].
        unfold signalled in *.
        destruct (chansend (boolChans w !! sub_QuitChan sub) true);
          [| |done]; destruct Hsig as [? ?]; split; congruence.
      * assert (id <> i) as Hne.
        { intros ->. apply Hi. apply list_elem_of_fmap. by exists (i, sub). }
        assert (sub_QuitChan s <> sub_QuitChan sub) as Hc
          by (apply (Hpriv i s); [by left|done]).
        destruct (Hother1 id Hne) as [Hs1 (Hq1 & Hp1 & Hd1)].
        specialize (Hframe _ Hc). specialize (Hquiet id Hne).
        destruct (IHin Hin) as [[(? & ? & ?) Hsame]|[(? & ? & ?) Hsig]];
          [left|right].
        { split; [repeat split; congruence|congruence]. }
        split; [repeat split; congruence|].
        unfold signalled in *. rewrite Hframe in Hsig.
        destruct (chansend (boolChans w !! sub_QuitChan sub) true);
          [| |done]; destruct Hsig as [? ?]; split; congruence.
Qed.

Lemma halt_if_empty_control w :
  boolChans (world_of (halt_if_empty w)) = boolChans w
  /\ (forall id, quit_events id (trace (world_of (halt_if_empty w)))
                 = quit_events id (trace w)).
Proof.
  unfold halt_if_empty, atomic_CompareAndSwapInt32. run.
  destruct (size (Subscriptions (sds w)) =? 0)%nat; run; [|done].
  destruct (subscribers (sds w) =? 1); run; [|done].
  split; [done|]. intros id. rewrite quit_events_snoc. cbn.
  by rewrite app_nil_r.
Qed.

(** A broadcast and the control sink of one subscriber that shares it
    with no other: untouched when the subscriber is served, signalled
    once when it is evicted. *)
Lemma send_control payload w id sub :
  Mutex (sds w) = false ->
  sinks_open w = true ->
  Subscriptions (sds w) !! id = Some sub ->
  private_control w id sub ->
  exists w', send payload w = Ret tt w'
    /\ ((accepted id payload w w'
         /\ boolChans w' !! sub_QuitChan sub = boolChans w !! sub_QuitChan sub)
        \/ (evicted id w w' /\ signalled id sub w w')).
Proof.
  intros Hm Hopen Hid Hpriv. unfold send, Lock. run. rewrite Hm. run.
  set (w0 := with_sds (with_Mutex true) w).
  destruct (send_range_spec payload (range (Subscriptions (sds w))) w0)
    as (w1 & Hrun & F & _).
  { apply range_NoDup. }
  { by apply sinks_open_range. }
  destruct (send_range_control payload id sub _ w0 w1 Hrun) as [_ Hin].
  { apply range_NoDup. }
  { by apply sinks_open_range. }
  { intros j s Hjs. apply range_elem in Hjs. by apply Hpriv. }
  specialize (Hin (proj2 (range_elem _ _ _) Hid)).
  rewrite Hrun. subst w0. cbn in F, Hin.
  destruct (halt_if_empty_spec w1) as (t & Hhalt & Hsame & _).
  destruct (halt_if_empty_control w1) as [_ Hqe]. rewrite Hhalt in Hqe.
  cbn in Hqe.
  rewrite Hhalt. unfold Unlock. cbn. rewrite (fr_Mutex _ _ F). cbn.
  eexists. split; [reflexivity|].
  destruct (Hsame id) as (Hq' & _ & Hd').
  unfold accepted, evicted, signalled in *. cbn in *.
  destruct Hin as [[(? & ? & ?) Hb]|[(? & ? & ?) Hsig]]; [left|right].
  - split; [|done]. repeat split; congruence.
  - split; [repeat split; congruence|].
    destruct (chansend (boolChans w !! sub_QuitChan sub) true);
      [| |done]; destruct Hsig as [? ?]; (split; [done|]);
      rewrite Hqe; done.
Qed.

(** What one turn of the loop of [close] does to the control sinks. *)
Lemma close_entry_control i s w w1 :
  close_entry (i, s) w = Ret tt w1 ->
  (forall c, sub_QuitChan s <> c -> boolChans w1 !! c = boolChans w !! c)
  /\ (forall j, j <> i -> quit_events j (trace w1) = quit_events j (trace w))
  /\ signalled i s w w1.
Proof.
  unfold close_entry, select_send_bool, signalled. run.
  destruct (chansend (boolChans w !! sub_QuitChan s) true) as [c1| |] eqn:Hq;
    run; [| |done]; intros [= <-]; cbn.
  - split; [intros c Hc; by apply lookup_insert_ne|]. split.
    + intros j Hj. rewrite !quit_events_snoc. cbn.
      rewrite bool_decide_eq_false_2 by congruence. by rewrite !app_nil_r.
    + split; [apply lookup_insert_eq|].
      rewrite !quit_events_snoc. cbn.
      rewrite bool_decide_eq_true_2 by done. by rewrite !app_nil_r.
  - split; [done|]. split.
    + intros j Hj. rewrite !quit_events_snoc. cbn.
      rewrite bool_decide_eq_false_2 by congruence. by rewrite !app_nil_r.
    + split; [done|].
      rewrite !quit_events_snoc. cbn.
      rewrite bool_decide_eq_true_2 by done. by rewrite !app_nil_r.
Qed.

Lemma close_range_control id sub l : forall w w',
  close_range l w = Ret tt w' ->
  NoDup (l.*1) ->
  (forall j s, (j, s) ∈ l -> j <> id -> sub_QuitChan s <> sub_QuitChan sub) ->
  (id ∉ l.*1 ->
     boolChans w' !! sub_QuitChan sub = boolChans w !! sub_QuitChan sub
     /\ quit_events id (trace w') = quit_events id (trace w))
  /\ ((id, sub) ∈ l -> signalled id sub w w').
Proof.
  induction l as [|[i s] rest IH]; intros w w' Hrun Hnd Hpriv.
  - cbn in Hrun. injection Hrun as <-. split; [done|].
    intros Hin. by apply elem_of_nil in Hin.
  - cbn in Hnd. apply NoDup_cons in Hnd as [Hi Hnd].
    cbn [close_range] in Hrun. unfold mbind, M_bind in Hrun.
    destruct (close_entry (i, s) w) as [[] w1|msg w1|w1] eqn:Hrun1; [|done..].
    destruct (close_entry_control i s w w1 Hrun1) as (Hframe & Hquiet & Hsig1).
    destruct (IH w1 w' Hrun Hnd) as [IHout IHin].
    { intros j s' Hin. apply Hpriv. by right. }
    split.
    + intros Hout. cbn in Hout. apply not_elem_of_cons in Hout as [Hne Hout].
      destruct (IHout Hout) as [-> ->]. split.
      * apply Hframe. apply (Hpriv i s); [by left|done].
      * by apply Hquiet.
    + intros Hin. apply elem_of_cons in Hin as [Heq|Hin].
      * injection Heq as <- <-. destruct (IHout Hi) as [Hb2 Hq2].
        unfold signalled in *.
        destruct (chansend (boolChans w !! sub_QuitChan sub) true);
          [| |done]; destruct Hsig1 as [? ?]; split; congruence.
      * assert (id <> i) as Hne.
        { intros ->. apply Hi. apply list_elem_of_fmap. by exists (i, sub). }
        assert (sub_QuitChan s <> sub_QuitChan sub) as Hc
          by (apply (Hpriv i s); [by left|done]).
        specialize (Hframe _ Hc). specialize (Hquiet id Hne).
        specialize (IHin Hin). unfold signalled in *. rewrite Hframe in IHin.
        destruct (chansend (boolChans w !! sub_QuitChan sub) true);
          [| |done]; destruct IHin as [? ?]; split; congruence.
Qed.

(** [close] and the control sink of one subscriber that shares it with no
    other: signalled exactly once. *)
Lemma close_control w id sub w' :
  close w = Ret tt w' ->
  Subscriptions (sds w) !! id = Some sub ->
  private_control w id sub ->
  signalled id sub w w'.
Proof.
  intros Hrun Hid Hpriv. unfold close, Lock, Unlock in Hrun. run.
  destruct (Mutex (sds w)) eqn:Hm; [done|]. run.
  set (w0 := with_sds (with_Mutex true) w) in *.
  destruct (close_range (range (Subscriptions (sds w))) w0)
    as [[] w1|msg w1|w1] eqn:Hrange; [|done..].
  destruct (close_range_control id sub _ w0 w1 Hrange) as [_ Hin].
  { apply range_NoDup. }
  { intros j s Hjs. apply range_elem in Hjs. by apply Hpriv. }
  specialize (Hin (proj2 (range_elem _ _ _) Hid)).
  cbn in Hrun. destruct (Mutex (sds w1)); [|done].
  injection Hrun as <-. subst w0. unfold signalled in *. cbn in *. done.
Qed.

(** ** The registry, the broadcast and the activity gate *)

(** C3. One call of [send] writes to every registered subscriber at
    most once.  A subscriber whose payload sink does not take the
    payload gets exactly one non-blocking termination signal on its
    control sink and, whether that signal was taken or not, is out of
    the registry when the call returns; this is what happens to every
    subscriber whose payload sink would block when the call starts.
    The signal is a real write: a control sink that no other registered
    subscriber holds is, after the call, in the state one non-blocking
    send of [true] leaves it in when its subscriber was evicted, and
    untouched when its subscriber was served.  While its id stays out
    of the registry no later broadcast writes to it. *)
Theorem send_evicts_stalled_subscriber payload w id sub :
  Mutex (sds w) = false ->
  sinks_open w = true ->
  Subscriptions (sds w) !! id = Some sub ->
  exists w', send payload w = Ret tt w'
    /\ payload_attempts id (trace w') = S (payload_attempts id (trace w))
    /\ (accepted id payload w w' \/ evicted id w w')
    /\ (chan_full (payloadChans w !! PayloadChan sub) = true ->
          evicted id w w')
    /\ (private_control w id sub ->
          (accepted id payload w w' ->
             boolChans w' !! sub_QuitChan sub = boolChans w !! sub_QuitChan sub)
          /\ (evicted id w w' -> signalled id sub w w'))
    /\ (forall payload' w1,
          Mutex (sds w1) = false -> sinks_open w1 = true ->
          Subscriptions (sds w1) !! id = None ->
          exists w2, send payload' w1 = Ret tt w2
            /\ payload_attempts id (trace w2) = payload_attempts id (trace w1)
            /\ deliveries id (trace w2) = deliveries id (trace w1)
            /\ Subscriptions (sds w2) !! id = None).
Proof.
  intros Hm Hopen Hid.
  destruct (send_spec payload w Hm Hopen)
    as (w' & Hrun & _ & _ & _ & _ & _ & _ & _ & _ & Hin).
  destruct (Hin id sub Hid) as (Hp & Hout & Hev).
  exists w'. do 4 (split; [done|]). split.
  { intros Hpriv.
    destruct (send_control payload w id sub Hm Hopen Hid Hpriv)
      as (w'' & Hrun' & Hcase).
    rewrite Hrun in Hrun'. injection Hrun' as <-.
    destruct Hcase as [[Hacc Hsame]|[Hevi Hsig]]; split; intros H; try done;
      exfalso; by eapply accepted_not_evicted. }
  intros payload' w1 Hm1 Hopen1 Hid1.
  destruct (send_spec payload' w1 Hm1 Hopen1)
    as (w2 & Hrun2 & _ & _ & _ & _ & _ & _ & Hsub2 & Hout2 & _).
  destruct (Hout2 id Hid1) as (_ & Hp2 & Hd2).
  exists w2. repeat split; try done.
  destruct (Hsub2 id) as [?|Heq]; [done|congruence].
Qed.

(** For a call that runs from start to end on its own, from a state
    whose flag is 0 or 1: after [Subscribe] the flag is 1 and the
    registry is not empty; after an [Unsubscribe] of a present id, and
    after a [send], an empty registry comes with flag 0; and each of the
    three leaves the flag equal to 1 exactly when the registry has an
    entry (for [Unsubscribe] and [send], provided it was so before). *)
Theorem gate_follows_registry w :
  Mutex (sds w) = false ->
  subscribers (sds w) = 0 \/ subscribers (sds w) = 1 ->
  (forall id sub quitChan,
     exists w', Subscribe id sub quitChan w = Ret tt w'
       /\ subscribers (sds w') = 1
       /\ Subscriptions (sds w') <> ∅
       /\ gate_ok w' = true)
  /\ (forall id, is_Some (Subscriptions (sds w) !! id) ->
       exists w', Unsubscribe id w = Ret None w'
         /\ (Subscriptions (sds w') = ∅ -> subscribers (sds w') = 0)
         /\ (gate_ok w = true -> gate_ok w' = true))
  /\ (forall payload, sinks_open w = true ->
       exists w', send payload w = Ret tt w'
         /\ (Subscriptions (sds w') = ∅ -> subscribers (sds w') = 0)
         /\ (gate_ok w = true -> gate_ok w' = true)).
Proof.
  intros Hm Hflag. split; [|split].
  - intros id sub quitChan.
    destruct (Subscribe_spec id sub quitChan w Hm)
      as (w' & Hrun & _ & Hsubs & Hn & _).
    assert (subscribers (sds w') = 1) as H1.
    { rewrite Hn. by destruct Hflag as [-> | ->]. }
    assert (Subscriptions (sds w') <> ∅) as Hne.
    { rewrite Hsubs. apply insert_non_empty. }
    exists w'. repeat split; try done.
    apply gate_ok_iff. rewrite H1.
    destruct (size (Subscriptions (sds w')) =? 0)%nat eqn:Hsz; [|done].
    by apply size_eqb_empty in Hsz.
  - intros id Hid.
    destruct (Unsubscribe_present id w Hm Hid)
      as (w' & Hrun & _ & Hsubs & Hn & _).
    exists w'. split; [done|]. split.
    + intros He. rewrite Hn. apply halted_empty; [done|congruence].
    + intros Hg. apply gate_ok_iff in Hg. apply gate_ok_iff.
      rewrite Hn, Hsubs. apply (halted_gate _ _ _ Hg).
      intros j. destruct (decide (id = j)) as [->|Hne];
        [left; apply lookup_delete_eq | right; by apply lookup_delete_ne].
  - intros payload Hopen.
    destruct (send_spec payload w Hm Hopen)
      as (w' & Hrun & _ & _ & _ & _ & Hn & _ & Hsub & _).
    exists w'. split; [done|]. split.
    + intros He. rewrite Hn. by apply halted_empty.
    + intros Hg. apply gate_ok_iff in Hg. apply gate_ok_iff.
      rewrite Hn. by apply (halted_gate _ _ _ Hg).
Qed.

(** C5 (as the code has it). [close] attempts one termination signal on
    the control sink of every registered subscriber, none on any other,
    and leaves the registry empty; the subscribers flag is not written:
    it holds after the call what it held before. *)
Theorem close_empties_registry_keeps_flag w :
  Mutex (sds w) = false ->
  sinks_open w = true ->
  exists w', close w = Ret tt w'
    /\ Subscriptions (sds w') = ∅
    /\ (forall id, quit_attempts id (trace w')
          = if Subscriptions (sds w) !! id is Some _
            then S (quit_attempts id (trace w))
            else quit_attempts id (trace w))
    /\ subscribers (sds w') = subscribers (sds w).
Proof.
  intros Hm Hopen.
  destruct (close_spec w Hm Hopen)
    as (w' & Hrun & _ & Hsubs & Hn & _ & _ & _ & _ & Hq).
  by exists w'.
Qed.

(** C6 (amended). [Stop] on a service whose shutdown channel is open
    closes that channel and returns nil; it is not idempotent: the next
    [Stop] closes the closed channel again and panics. *)
Theorem Stop_closes_once_then_panics w c :
  boolChans w !! QuitChan (sds w) = Some c ->
  ch_closed c = false ->
  exists w1, Stop w = Ret None w1
    /\ chan_closed (boolChans w1 !! QuitChan (sds w1)) = true
    /\ exists w2, Stop w1 = Panic "close of closed channel" w2.
Proof.
  intros Hc Hopen. unfold Stop, close_bool. run. rewrite Hc. run.
  rewrite Hopen. run. eexists. split; [reflexivity|]. cbn.
  rewrite lookup_insert_eq. cbn. split; [done|]. eauto.
Qed.

(** C7. With the mutex free, [Unsubscribe] of an id that is not in the
    registry returns an error and leaves the registry and the
    subscribers flag as they were; of an id that is in the registry it
    returns nil and the registry is the old one without that entry. *)
Theorem Unsubscribe_missing_or_present id w :
  Mutex (sds w) = false ->
  (Subscriptions (sds w) !! id = None ->
     exists err w', Unsubscribe id w = Ret (Some err) w'
       /\ Subscriptions (sds w') = Subscriptions (sds w)
       /\ subscribers (sds w') = subscribers (sds w))
  /\ (is_Some (Subscriptions (sds w) !! id) ->
       exists w', Unsubscribe id w = Ret None w'
         /\ Subscriptions (sds w') = delete id (Subscriptions (sds w))).
Proof.
  intros Hm. split.
  - intros Hid.
    destruct (Unsubscribe_missing id w Hm Hid) as (e & w' & ? & _ & ? & ? & _).
    by exists e, w'.
  - intros Hid.
    destruct (Unsubscribe_present id w Hm Hid) as (w' & ? & _ & ? & _).
    by exists w'.
Qed.

(** C10 (as the code has it). [Unsubscribe] of an id that is not in the
    registry returns its error with the mutex still held, and every
    later [Subscribe] parks on it. *)
Theorem Unsubscribe_missing_id_keeps_mutex id w :
  Mutex (sds w) = false ->
  Subscriptions (sds w) !! id = None ->
  exists err w', Unsubscribe id w = Ret (Some err) w'
    /\ Mutex (sds w') = true
    /\ (forall id' sub quitChan,
          exists w'', Subscribe id' sub quitChan w' = Park w'').
Proof.
  intros Hm Hid.
  destruct (Unsubscribe_missing id w Hm Hid) as (e & w' & Hrun & Hheld & _).
  exists e, w'. repeat split; try done.
  intros id' sub quitChan. by apply Subscribe_parks.
Qed.

(** ** The last-block cache and the empty-diff check *)

Lemma keeps_Loop_tail currentBlock (parentBlock : option Block) :
  keeps cached
    (match parentBlock with
     | None => log LvlError "Parent block is nil, skipping this block (%d)"
     | Some parentBlock =>
         err ← processStateDiff currentBlock parentBlock;
         if (err : option GoError) is Some _
         then log LvlError "Error building statediff for block %d; error: "
         else mret tt
     end).
Proof. pose proof keeps_processStateDiff. keeps_tac. Qed.

(** C8 (amended). A chain event received while the subscribers flag is
    not zero overwrites the last-block cache with its block, whatever
    happens to the event afterwards (parent not found, builder or encoder
    failure, empty diff, broadcast, even a panic or a park inside the
    broadcast); a chain event received while the flag is zero leaves the
    cache as it was. *)
Theorem Loop_chainEvent_cache chainEvent w :
  cached (world_of (Loop_chainEvent chainEvent w))
  = if subscribers (sds w) =? 0 then cached w
    else Some (ev_Block chainEvent).
Proof.
  unfold Loop_chainEvent, atomic_LoadInt32.
  unfold mbind at 1 2, M_bind at 1 2. cbn [log emit].
  cbn [subscribers sds with_trace].
  destruct (subscribers (sds w) =? 0); [done|].
  unfold mbind at 1 2, M_bind at 1 2. cbn [get_sds].
  set (w0 := with_trace _ w).
  assert (exists pb w1, (match lastBlock (sds w0) with
            | Some last =>
                if bytes_Equal (Block_Hash last)
                     (Block_ParentHash (ev_Block chainEvent))
                then mret (Some last)
                else emit (EvGetBlockByHash (Block_ParentHash (ev_Block chainEvent))) ;;
                     mret (GetBlockByHash (Block_ParentHash (ev_Block chainEvent)))
            | None =>
                emit (EvGetBlockByHash (Block_ParentHash (ev_Block chainEvent))) ;;
                mret (GetBlockByHash (Block_ParentHash (ev_Block chainEvent)))
            end) w0 = Ret pb w1) as (pb & w1 & ->).
  { destruct (lastBlock (sds w0)) as [last|]; [|by eexists _, _].
    destruct bytes_Equal; by eexists _, _. }
  unfold mbind at 1, M_bind at 1. cbn [modify_sds].
  by rewrite keeps_Loop_tail.
Qed.

(** C9 (amended). When computing the empty diff of the current block
    fails, [processStateDiff] logs a warning and takes the payload for a
    non-empty one: it calls [send] with it and, when [send] returns,
    returns nil. *)
Theorem processStateDiff_sends_when_check_fails currentBlock parentBlock w
    stateDiff stateDiffRlp blockRlp receiptsRlp err :
  BuildStateDiff (Block_Root parentBlock) (Block_Root currentBlock)
    (Block_Number currentBlock) (Block_Hash currentBlock) = Ok stateDiff ->
  rlp_EncodeStateDiff stateDiff = Ok stateDiffRlp ->
  (StreamBlock (sds w) = true ->
     Block_EncodeRLP currentBlock = Ok blockRlp
     /\ rlp_EncodeReceipts (GetReceiptsByHash (Block_Hash currentBlock))
        = Ok receiptsRlp) ->
  getEmptyStateDiffRlpForBlock currentBlock = Err err ->
  exists t,
    processStateDiff currentBlock parentBlock w
    = (send (if StreamBlock (sds w)
             then mkPayload stateDiffRlp blockRlp receiptsRlp
             else mkPayload stateDiffRlp [] []) ;; mret None)
        (with_trace (trace w ++ t) w)
    /\ In (EvLog LvlWarn "Error checking if payload is empty") t
    /\ (forall id, same_events id (trace w) (trace w ++ t)).
Proof.
  intros Hbuild Henc Hstream Hempty. unfold processStateDiff.
  rewrite Hbuild, Henc.
  assert (forall p, isEmptyPayload p currentBlock = (false, Some err)) as Hcheck.
  { intros p. unfold isEmptyPayload. by rewrite Hempty. }
  unfold mbind at 1 2 3, M_bind at 1 2 3. cbn [emit get_sds].
  destruct (StreamBlock (sds w)) eqn:Hsb; cbn [StreamBlock sds with_trace].
  - destruct (Hstream eq_refl) as [-> Hr]. rewrite Hsb.
    unfold mbind at 1, M_bind at 1. cbn [emit]. rewrite Hr.
    cbn [mret M_ret]. rewrite Hcheck. cbn [negb].
    unfold mbind at 1, M_bind at 1. cbn [log emit].
    exists ([EvBuildStateDiff (Block_Root parentBlock) (Block_Root currentBlock)
               (Block_Number currentBlock) (Block_Hash currentBlock)]
            ++ [EvGetReceiptsByHash (Block_Hash currentBlock)]
            ++ [EvLog LvlWarn "Error checking if payload is empty"]).
    rewrite !(assoc_L (++)). split; [done|]. split.
    + cbn. auto.
    + intros id. repeat split; trace_tac.
  - rewrite Hsb. cbn [mret M_ret]. rewrite Hcheck. cbn [negb].
    unfold mbind at 1, M_bind at 1. cbn [log emit].
    exists ([EvBuildStateDiff (Block_Root parentBlock) (Block_Root currentBlock)
               (Block_Number currentBlock) (Block_Hash currentBlock)]
            ++ [EvLog LvlWarn "Error checking if payload is empty"]).
    rewrite !(assoc_L (++)). split; [done|]. split.
    + cbn. auto.
    + intros id. repeat split; trace_tac.
Qed.

(** ** More on the registry operations *)

(** X1. Registering a new id and unsubscribing it again, in a
    state where the flag mirrors the registry, gives back the registry
    and the flag, with the mutex free and no channel touched. *)
Theorem Subscribe_then_Unsubscribe id sub quitChan w :
  Mutex (sds w) = false ->
  gate_ok w = true ->
  Subscriptions (sds w) !! id = None ->
  exists w1 w2,
    Subscribe id sub quitChan w = Ret tt w1
    /\ Unsubscribe id w1 = Ret None w2
    /\ Subscriptions (sds w2) = Subscriptions (sds w)
    /\ subscribers (sds w2) = subscribers (sds w)
    /\ Mutex (sds w2) = false
    /\ payloadChans w2 = payloadChans w
    /\ boolChans w2 = boolChans w.
Proof.
  intros Hm Hg Hid.
  destruct (Subscribe_spec id sub quitChan w Hm)
    as (w1 & Hrun1 & Hm1 & Hs1 & Hn1 & Hp1 & Hb1).
  destruct (Unsubscribe_present id w1 Hm1)
    as (w2 & Hrun2 & Hm2 & Hs2 & Hn2 & Hp2 & Hb2).
  { rewrite Hs1, lookup_insert_eq. eauto. }
  exists w1, w2. do 2 (split; [done|]).
  assert (Subscriptions (sds w2) = Subscriptions (sds w)) as Hs.
  { rewrite Hs2, Hs1. by apply delete_insert_id. }
  split; [done|]. split; [|repeat split; congruence].
  rewrite Hn2, Hn1, Hs1, delete_insert_id by done.
  apply gate_ok_iff in Hg. rewrite Hg. unfold halted.
  by destruct (size (Subscriptions (sds w)) =? 0)%nat.
Qed.

Lemma Subscribe_quiet id sub quitChan w :
  payloadChans (world_of (Subscribe id sub quitChan w)) = payloadChans w
  /\ boolChans (world_of (Subscribe id sub quitChan w)) = boolChans w
  /\ (forall j, same_events j (trace w)
                  (trace (world_of (Subscribe id sub quitChan w)))).
Proof.
  unfold Subscribe, atomic_CompareAndSwapInt32, Lock, Unlock. run.
  destruct (subscribers (sds w) =? 0); run;
    destruct (Mutex (sds w)); run;
    (split; [done|]; split; [done|]; intros j; repeat split; trace_tac).
Qed.

Lemma Unsubscribe_quiet id w :
  payloadChans (world_of (Unsubscribe id w)) = payloadChans w
  /\ boolChans (world_of (Unsubscribe id w)) = boolChans w
  /\ (forall j, same_events j (trace w) (trace (world_of (Unsubscribe id w)))).
Proof.
  unfold Unsubscribe, Lock. run.
  destruct (Mutex (sds w)) eqn:Hm; run.
  { split; [done|]; split; [done|]; intros j; repeat split; trace_tac. }
  destruct (Subscriptions (sds w) !! id); run.
  2: { split; [done|]; split; [done|]; intros j; repeat split; trace_tac. }
  match goal with |- context [halt_if_empty ?w0] =>
    destruct (halt_if_empty_spec w0) as (t & -> & Hsame & _) end.
  unfold Unlock. cbn. split; [done|]. split; [done|].
  intros j. eapply same_events_trans; [|apply Hsame].
  cbn. repeat split; trace_tac.
Qed.

(** X4. Neither [Subscribe] nor [Unsubscribe] writes to a channel or
    signals a subscriber, however the call ends: a subscription that is
    replaced or removed through them is dropped in silence. *)
Theorem registry_calls_write_no_channel id sub quitChan w :
  (payloadChans (world_of (Subscribe id sub quitChan w)) = payloadChans w
   /\ boolChans (world_of (Subscribe id sub quitChan w)) = boolChans w
   /\ (forall j, same_events j (trace w)
                   (trace (world_of (Subscribe id sub quitChan w)))))
  /\ (payloadChans (world_of (Unsubscribe id w)) = payloadChans w
      /\ boolChans (world_of (Unsubscribe id w)) = boolChans w
      /\ (forall j, same_events j (trace w)
                      (trace (world_of (Unsubscribe id w))))).
Proof. split; [apply Subscribe_quiet | apply Unsubscribe_quiet]. Qed.

(** X2. A second [Subscribe] under the same id replaces the first: the
    registry holds the second pair of channels under that id, every
    other entry is as it was, and the flag is 1 if it was 0 or 1. *)
Theorem Subscribe_overwrites id sub quitChan sub' quitChan' w :
  Mutex (sds w) = false ->
  exists w1 w2,
    Subscribe id sub quitChan w = Ret tt w1
    /\ Subscribe id sub' quitChan' w1 = Ret tt w2
    /\ Subscriptions (sds w2)
       = <[id := mkSubscription sub' quitChan']> (Subscriptions (sds w))
    /\ size (Subscriptions (sds w2)) = size (Subscriptions (sds w1))
    /\ subscribers (sds w2)
       = (if subscribers (sds w) =? 0 then 1 else subscribers (sds w)).
Proof.
  intros Hm.
  destruct (Subscribe_spec id sub quitChan w Hm)
    as (w1 & Hrun1 & Hm1 & Hs1 & Hn1 & _).
  destruct (Subscribe_spec id sub' quitChan' w1 Hm1)
    as (w2 & Hrun2 & Hm2 & Hs2 & Hn2 & _).
  exists w1, w2. do 2 (split; [done|]).
  split; [by rewrite Hs2, Hs1, insert_insert_eq|]. split.
  - rewrite Hs2, Hs1, insert_insert_eq.
    destruct (Subscriptions (sds w) !! id) as [old|] eqn:Hold.
    + rewrite <- (insert_delete_id (Subscriptions (sds w)) id old Hold) at 1 2.
      rewrite !insert_insert_eq.
      by rewrite !map_size_insert_None by apply lookup_delete_eq.
    + by rewrite !map_size_insert_None.
  - rewrite Hn2, Hn1.
    destruct (subscribers (sds w) =? 0) eqn:E; [done|by rewrite E].
Qed.

(** X3. Of two [Unsubscribe] calls for the same registered id the first
    removes the entry and returns nil, the second finds nothing, returns
    the error, changes nothing in the registry and keeps the mutex. *)
Theorem Unsubscribe_twice id w :
  Mutex (sds w) = false ->
  is_Some (Subscriptions (sds w) !! id) ->
  exists w1 err w2,
    Unsubscribe id w = Ret None w1
    /\ Unsubscribe id w1 = Ret (Some err) w2
    /\ Subscriptions (sds w2) = delete id (Subscriptions (sds w))
    /\ Mutex (sds w2) = true.
Proof.
  intros Hm Hid.
  destruct (Unsubscribe_present id w Hm Hid) as (w1 & Hrun1 & Hm1 & Hs1 & _).
  destruct (Unsubscribe_missing id w1 Hm1)
    as (err & w2 & Hrun2 & Hm2 & Hs2 & _).
  { rewrite Hs1. apply lookup_delete_eq. }
  exists w1, err, w2. repeat split; congruence.
Qed.

Lemma range_empty : range (∅ : gmap string Subscription) = [].
Proof. apply Permutation_nil_r. by rewrite (range_perm ∅), map_to_list_empty. Qed.

(** X5. A broadcast over an empty registry writes to no channel and makes
    no attempt on any subscriber; it takes and frees the mutex and
    resets the flag from 1 to 0. *)
Theorem send_empty_registry payload w :
  Mutex (sds w) = false ->
  Subscriptions (sds w) = ∅ ->
  exists w', send payload w = Ret tt w'
    /\ Mutex (sds w') = false
    /\ Subscriptions (sds w') = ∅
    /\ subscribers (sds w')
       = (if subscribers (sds w) =? 1 then 0 else subscribers (sds w))
    /\ payloadChans w' = payloadChans w
    /\ boolChans w' = boolChans w
    /\ (forall id, same_events id (trace w) (trace w')).
Proof.
  intros Hm He. unfold send, Lock. run. rewrite Hm. run.
  rewrite He, range_empty. run.
  match goal with |- context [halt_if_empty ?w0] =>
    destruct (halt_if_empty_spec w0) as (t & -> & Hsame & _) end.
  unfold Unlock. cbn. eexists. split; [reflexivity|]. cbn.
  rewrite He. unfold halted. rewrite map_size_empty. cbn.
  repeat split; try done; apply Hsame.
Qed.

(** X6. [close] on an empty registry changes nothing at all: it takes and
    frees the mutex and leaves the world, trace included, as it was. *)
Theorem close_empty_registry w :
  Mutex (sds w) = false ->
  Subscriptions (sds w) = ∅ ->
  close w = Ret tt w.
Proof.
  intros Hm He. unfold close, Lock, Unlock. run. rewrite Hm. run.
  rewrite He, range_empty. run.
  destruct w as [[] ? ? ?]. cbn in *. by subst.
Qed.

(** X7. [Stop] touches the shutdown channel only: however it ends, the
    service record, every payload channel and every other control
    channel are as before, and no subscriber is signalled. *)
Theorem Stop_touches_only_QuitChan w :
  sds (world_of (Stop w)) = sds w
  /\ payloadChans (world_of (Stop w)) = payloadChans w
  /\ (forall c, c <> QuitChan (sds w) ->
        boolChans (world_of (Stop w)) !! c = boolChans w !! c)
  /\ (forall id, same_events id (trace w) (trace (world_of (Stop w)))).
Proof.
  unfold Stop, close_bool. run.
  destruct (boolChans w !! QuitChan (sds w)) as [c|]; run.
  - destruct (ch_closed c); run.
    + repeat split; trace_tac.
    + split; [done|]. split; [done|]. split.
      * intros c' Hc'. by apply lookup_insert_ne.
      * intros id. repeat split; trace_tac.
  - repeat split; trace_tac.
Qed.

(** ** The mutex on the return paths *)

Lemma on_return_bind {A B : Type} (Q : B -> World -> Prop) (m : M A)
    (k : A -> M B) w :
  (forall a w1, on_return Q (k a w1)) -> on_return Q ((m ≫= k) w).
Proof.
  intros Hk. unfold mbind, M_bind. destruct (m w); cbn; [apply Hk|done..].
Qed.

Lemma on_return_Unlock w :
  on_return (fun _ w' => Mutex (sds w') = false) (Unlock w).
Proof. unfold Unlock. by destruct (Mutex (sds w)). Qed.

(** X8. Whenever [Subscribe], [send] or [close] returns, and whenever
    [Unsubscribe] returns nil, the mutex is free; when [Unsubscribe]
    returns an error the mutex is held. *)
Theorem mutex_on_return id sub quitChan payload w :
  on_return (fun _ w' => Mutex (sds w') = false) (Subscribe id sub quitChan w)
  /\ on_return (fun _ w' => Mutex (sds w') = false) (send payload w)
  /\ on_return (fun _ w' => Mutex (sds w') = false) (close w)
  /\ on_return (fun err w' => Mutex (sds w') = if err is Some _ then true else false)
       (Unsubscribe id w).
Proof.
  split; [|split; [|split]].
  - unfold Subscribe. do 4 (apply on_return_bind; intros ? ?).
    apply on_return_Unlock.
  - unfold send. do 4 (apply on_return_bind; intros ? ?).
    apply on_return_Unlock.
  - unfold close. do 3 (apply on_return_bind; intros ? ?).
    apply on_return_Unlock.
  - unfold Unsubscribe. apply on_return_bind. intros _ w1.
    unfold Lock, mbind, M_bind. destruct (Mutex (sds w1)) eqn:Hm; [done|].
    cbn. destruct (Subscriptions (sds w1) !! id); [|done].
    cbn. match goal with |- context [halt_if_empty ?w0] =>
      destruct (halt_if_empty_spec w0) as (t & -> & _) end.
    done.
Qed.

(** ** No subscriber behind a closed gate *)

Lemma gate_sound_iff w :
  gate_sound w = true <->
  (subscribers (sds w) = 0 /\ Subscriptions (sds w) = ∅)
  \/ subscribers (sds w) = 1.
Proof.
  unfold gate_sound. rewrite orb_true_iff, andb_true_iff, !Z.eqb_eq.
  by rewrite size_eqb_empty.
Qed.

Lemma gate_sound_ext w w' :
  subscribers (sds w') = subscribers (sds w) ->
  Subscriptions (sds w') = Subscriptions (sds w) ->
  gate_sound w' = gate_sound w.
Proof. unfold gate_sound. by intros -> ->. Qed.

Lemma preserves_ret {A : Type} (P : World -> Prop) (a : A) : preserves P (mret a).
Proof. by intros w. Qed.

Lemma preserves_bind {A B : Type} (P : World -> Prop) (m : M A) (k : A -> M B) :
  preserves P m -> (forall a, preserves P (k a)) -> preserves P (m ≫= k).
Proof.
  intros Hm Hk w HP. unfold mbind, M_bind. specialize (Hm w HP).
  destruct (m w) as [a w1|msg w1|w1]; cbn in *; [|done..].
  by apply Hk.
Qed.

Lemma sound_emit e : preserves sound (emit e).
Proof. by intros w. Qed.

Lemma sound_log lvl msg : preserves sound (log lvl msg).
Proof. by intros w. Qed.

Lemma sound_get_sds : preserves sound get_sds.
Proof. by intros w. Qed.

Lemma sound_LoadInt32 : preserves sound atomic_LoadInt32.
Proof. by intros w. Qed.

Lemma sound_Lock : preserves sound Lock.
Proof. intros w. unfold Lock. by destruct (Mutex (sds w)). Qed.

Lemma sound_Unlock : preserves sound Unlock.
Proof. intros w. unfold Unlock. by destruct (Mutex (sds w)). Qed.

Lemma sound_select_send_Payload ch v : preserves sound (select_send_Payload ch v).
Proof. intros w. unfold select_send_Payload. by destruct chansend. Qed.

Lemma sound_select_send_bool ch v : preserves sound (select_send_bool ch v).
Proof. intros w. unfold select_send_bool. by destruct chansend. Qed.

Lemma sound_close_bool ch : preserves sound (close_bool ch).
Proof.
  intros w. unfold close_bool. destruct (boolChans w !! ch) as [c|]; [|done].
  cbn. by destruct (ch_closed c).
Qed.

Lemma sound_set_lastBlock b : preserves sound (modify_sds (with_lastBlock b)).
Proof. by intros w. Qed.

Lemma sound_delete id :
  preserves sound
    (modify_sds (fun s => with_Subscriptions (delete id (Subscriptions s)) s)).
Proof.
  intros w Hw. unfold sound in *. apply gate_sound_iff in Hw.
  apply gate_sound_iff. cbn. destruct Hw as [[H0 He]|H1]; [left|by right].
  split; [done|]. by rewrite He, delete_empty.
Qed.

Lemma sound_halt_if_empty : preserves sound halt_if_empty.
Proof.
  intros w Hw. destruct (halt_if_empty_spec w) as (t & -> & _). cbn.
  unfold sound in *. apply gate_sound_iff in Hw. apply gate_sound_iff. cbn.
  unfold halted. destruct (size (Subscriptions (sds w)) =? 0)%nat eqn:Hsz; [|done].
  apply size_eqb_empty in Hsz. left.
  destruct Hw as [[-> _]| ->]; by split.
Qed.

Lemma sound_Subscribe id sub quitChan : preserves sound (Subscribe id sub quitChan).
Proof.
  intros w Hw. unfold sound in *. apply gate_sound_iff in Hw.
  apply gate_sound_iff.
  unfold Subscribe, atomic_CompareAndSwapInt32, Lock, Unlock. run.
  destruct (Z.eqb_spec (subscribers (sds w)) 0) as [H0|Hn0]; run;
    destruct (Mutex (sds w)); run; try (by right);
    (destruct Hw as [[? ?]|?]; [done|by right]).
Qed.

Create HintDb sound.
#[local] Hint Resolve preserves_ret sound_emit sound_log sound_get_sds
  sound_LoadInt32 sound_Lock sound_Unlock sound_select_send_Payload
  sound_select_send_bool sound_close_bool sound_set_lastBlock sound_delete
  sound_halt_if_empty sound_Subscribe : sound.

Ltac sound_tac :=
  repeat first
    [ progress auto with sound
    | apply preserves_bind
    | match goal with
      | |- forall _, _ => intro
      | |- preserves _ (if ?b then _ else _) => destruct b
      | |- preserves _ (match ?x with _ => _ end) => destruct x
      end ].

Lemma sound_send_range payload l : preserves sound (send_range payload l).
Proof.
  induction l as [|[id sub] rest IH]; cbn [send_range]; [apply preserves_ret|].
  apply preserves_bind; [|done]. unfold send_entry. sound_tac.
Qed.

Lemma sound_close_range l : preserves sound (close_range l).
Proof.
  induction l as [|[id sub] rest IH]; cbn [close_range]; [apply preserves_ret|].
  apply preserves_bind; [|done]. unfold close_entry. sound_tac.
Qed.

Lemma sound_send payload : preserves sound (send payload).
Proof. unfold send. pose proof sound_send_range. sound_tac. Qed.

Lemma sound_close : preserves sound close.
Proof. unfold close. pose proof sound_close_range. sound_tac. Qed.

Lemma sound_Unsubscribe id : preserves sound (Unsubscribe id).
Proof. unfold Unsubscribe. sound_tac. Qed.

Lemma sound_Stop : preserves sound Stop.
Proof. unfold Stop. sound_tac. Qed.

Lemma sound_processStateDiff cur par : preserves sound (processStateDiff cur par).
Proof. unfold processStateDiff. pose proof sound_send. sound_tac. Qed.

Lemma sound_Loop_select c : preserves sound (Loop_select c).
Proof.
  pose proof sound_processStateDiff. pose proof sound_close.
  destruct c; cbn [Loop_select]; [unfold Loop_chainEvent|..]; sound_tac.
Qed.

Lemma sound_Loop_for cases : preserves sound (Loop_for cases).
Proof.
  induction cases as [|c rest IH]; cbn [Loop_for]; [apply preserves_ret|].
  pose proof sound_Loop_select. sound_tac.
Qed.

(** X9. From a state in which the flag is 1, or is 0 over an empty
    registry, every method of the service and every run of the loop ends
    in such a state again, whether it returns, panics or parks: run one
    after the other, the calls never leave a registered subscriber
    behind a closed gate. *)
Theorem gate_sound_kept w :
  gate_sound w = true ->
  (forall id sub quitChan,
     gate_sound (world_of (Subscribe id sub quitChan w)) = true)
  /\ (forall id, gate_sound (world_of (Unsubscribe id w)) = true)
  /\ (forall payload, gate_sound (world_of (send payload w)) = true)
  /\ gate_sound (world_of (close w)) = true
  /\ gate_sound (world_of (Stop w)) = true
  /\ (forall cases, gate_sound (world_of (Loop cases w)) = true).
Proof.
  intros Hw. repeat split; intros.
  - by apply sound_Subscribe.
  - by apply sound_Unsubscribe.
  - by apply sound_send.
  - by apply sound_close.
  - by apply sound_Stop.
  - assert (preserves sound (Loop cases)) as HL.
    { unfold Loop. pose proof sound_Loop_for. sound_tac. }
    by apply HL.
Qed.

(** ** Where an accepted payload ends up *)

Lemma chansend_would_block {V : Type} (c : option (Chan V)) (v : V) :
  chansend c v = SendWouldBlock -> chan_full c = true.
Proof.
  destruct c as [[cap buf rq cl]|]; cbn; [|done].
  destruct cl; [done|].
  destruct (Nat.ltb_spec 0 rq); [done|].
  destruct (Nat.ltb_spec (length buf) cap); [done|]. intros _. cbn.
  apply andb_true_iff. split; [apply Nat.eqb_eq | apply Nat.leb_le]; lia.
Qed.

Lemma send_entry_chan payload i s w w1 c :
  send_entry payload (i, s) w = Ret tt w1 ->
  (PayloadChan s <> c -> payloadChans w1 !! c = payloadChans w !! c)
  /\ (chan_full (payloadChans w !! PayloadChan s) = false ->
       exists c', chansend (payloadChans w !! PayloadChan s) payload = SendOk c'
         /\ payloadChans w1 !! PayloadChan s = Some c'
         /\ accepted i payload w w1).
Proof.
  unfold send_entry, select_send_Payload, select_send_bool. run.
  destruct (chansend (payloadChans w !! PayloadChan s) payload) as [c0| |] eqn:Hs;
    run; [| |done].
  - intros [= <-]. cbn. split.
    + intros Hne. by apply lookup_insert_ne.
    + intros _. exists c0. split; [done|]. split; [apply lookup_insert_eq|].
      unfold accepted. cbn. repeat split; trace_tac.
  - apply chansend_would_block in Hs. rewrite Hs.
    destruct (chansend (boolChans w !! sub_QuitChan s) true); run;
      [| |done]; intros [= <-]; cbn; by split.
Qed.

Lemma send_range_private payload id sub l : forall w w',
  send_range payload l w = Ret tt w' ->
  NoDup (l.*1) ->
  Forall (fun e => entry_open w e.2 = true) l ->
  (forall j s, (j, s) ∈ l -> j <> id -> PayloadChan s <> PayloadChan sub) ->
  (id ∉ l.*1 ->
     payloadChans w' !! PayloadChan sub = payloadChans w !! PayloadChan sub)
  /\ ((id, sub) ∈ l ->
      chan_full (payloadChans w !! PayloadChan sub) = false ->
      exists c', chansend (payloadChans w !! PayloadChan sub) payload = SendOk c'
        /\ payloadChans w' !! PayloadChan sub = Some c'
        /\ accepted id payload w w').
Proof.
  induction l as [|[i s] rest IH]; intros w w' Hrun Hnd Hopen Hpriv.
  - cbn in Hrun. injection Hrun as <-. split; [done|].
    intros Hin. by apply elem_of_nil in Hin.
  - cbn in Hnd. apply NoDup_cons in Hnd as [Hi Hnd].
    apply Forall_cons in Hopen as [Hs Hopen]. cbn in Hs.
    destruct (send_entry_spec payload i s w Hs)
      as (w1 & Hrun1 & F1 & Hother1 & _).
    cbn [send_range] in Hrun. unfold mbind, M_bind in Hrun.
    rewrite Hrun1 in Hrun.
    destruct (send_entry_chan payload i s w w1 (PayloadChan sub) Hrun1)
      as [Hframe Hroom].
    destruct (IH w1 w' Hrun Hnd) as [IHout IHin].
    { eapply Forall_impl; [exact Hopen|]. intros e He.
      by rewrite (Frame_entry_open _ _ _ F1). }
    { intros j s' Hin. apply Hpriv. by right. }
    split.
    + intros Hout. cbn in Hout. apply not_elem_of_cons in Hout as [Hne Hout].
      rewrite (IHout Hout). apply Hframe. apply (Hpriv i s); [by left|done].
    + intros Hin Hfull. apply elem_of_cons in Hin as [Heq|Hin].
      * injection Heq as <- <-.
        destruct (Hroom Hfull) as (c' & Hsend & Hc' & Hacc).
        exists c'. split; [done|]. split; [by rewrite (IHout Hi)|].
        destruct (send_range_spec payload rest w1 Hnd) as (w2 & Hrun2 & _ & Hother2 & _).
        { eapply Forall_impl; [exact Hopen|]. intros e He.
          by rewrite (Frame_entry_open _ _ _ F1). }
        rewrite Hrun in Hrun2. injection Hrun2 as <-.
        destruct (Hother2 id Hi) as [Hs2 (Hq2 & Hp2 & Hd2)].
        destruct Hacc as (? & ? & ?). repeat split; congruence.
      * assert (id <> i) as Hne.
        { intros ->. apply Hi. apply list_elem_of_fmap. by exists (i, sub). }
        assert (PayloadChan s <> PayloadChan sub) as Hc
          by (apply (Hpriv i s); [by left|done]).
        rewrite <- (Hframe Hc) in Hfull |- *.
        destruct (IHin Hin Hfull) as (c' & Hsend & Hc' & Hacc).
        exists c'. do 2 (split; [done|]).
        destruct (Hother1 id Hne) as [Hs1 (Hq1 & Hp1 & Hd1)].
        destruct Hacc as (? & ? & ?). repeat split; congruence.
Qed.

(** X10. A registered subscriber whose payload sink has room (or a
    receiver waiting), and shares it with no other registered
    subscriber, is served by a broadcast: when [send] returns, its sink
    is in the state one accepted non-blocking send of the payload leaves
    it in, the delivery is on record, it got no termination signal, and
    it is still registered. *)
Theorem send_delivers_to_private_sink payload w id sub :
  Mutex (sds w) = false ->
  sinks_open w = true ->
  Subscriptions (sds w) !! id = Some sub ->
  (forall j s, Subscriptions (sds w) !! j = Some s -> j <> id ->
     PayloadChan s <> PayloadChan sub) ->
  chan_full (payloadChans w !! PayloadChan sub) = false ->
  exists w' c',
    send payload w = Ret tt w'
    /\ chansend (payloadChans w !! PayloadChan sub) payload = SendOk c'
    /\ payloadChans w' !! PayloadChan sub = Some c'
    /\ accepted id payload w w'
    /\ Subscriptions (sds w') !! id = Some sub.
Proof.
  intros Hm Hopen Hid Hpriv Hfull. unfold send, Lock. run. rewrite Hm. run.
  set (w0 := with_sds (with_Mutex true) w).
  destruct (send_range_spec payload (range (Subscriptions (sds w))) w0)
    as (w1 & Hrun & F & _).
  { apply range_NoDup. }
  { by apply sinks_open_range. }
  destruct (send_range_private payload id sub _ w0 w1 Hrun) as [_ Hin].
  { apply range_NoDup. }
  { by apply sinks_open_range. }
  { intros j s Hjs. apply range_elem in Hjs. by apply Hpriv. }
  destruct Hin as (c' & Hsend & Hc' & Hacc); [by apply range_elem|done|].
  rewrite Hrun. subst w0. cbn in F, Hsend, Hc', Hacc.
  destruct (halt_if_empty_spec w1) as (t & Hhalt & Hsame & _).
  rewrite Hhalt. unfold Unlock. cbn. rewrite (fr_Mutex _ _ F). cbn.
  eexists _, c'. split; [reflexivity|]. cbn. do 2 (split; [done|]).
  destruct Hacc as (Hd & Hq & Hs). destruct (Hsame id) as (Hq' & _ & Hd').
  assert (accepted id payload w
            (with_sds (with_Mutex false)
               (with_trace (trace w1 ++ t)
                  (with_sds (with_subscribers
                     (halted (Subscriptions (sds w1)) (subscribers (sds w1)))) w1))))
    as Hacc.
  { unfold accepted in *. cbn in *. repeat split; congruence. }
  split; [exact Hacc|]. destruct Hacc as (_ & _ & Hreg). cbn in Hreg.
  cbn. congruence.
Qed.

(** ** Calls to the collaborators, counted through every outcome *)

Lemma keeps_trace_get_sds : keeps trace get_sds.
Proof. by intros w. Qed.

Lemma keeps_trace_modify_sds f : keeps trace (modify_sds f).
Proof. by intros w. Qed.

Lemma keeps_trace_Lock : keeps trace Lock.
Proof. intros w. unfold Lock. by destruct (Mutex (sds w)). Qed.

Lemma keeps_trace_Unlock : keeps trace Unlock.
Proof. intros w. unfold Unlock. by destruct (Mutex (sds w)). Qed.

Lemma keeps_trace_CompareAndSwap old new :
  keeps trace (atomic_CompareAndSwapInt32 old new).
Proof.
  intros w. unfold atomic_CompareAndSwapInt32.
  by destruct (subscribers (sds w) =? old).
Qed.

Lemma keeps_trace_select_send_Payload ch v : keeps trace (select_send_Payload ch v).
Proof. intros w. unfold select_send_Payload. by destruct chansend. Qed.

Lemma keeps_trace_select_send_bool ch v : keeps trace (select_send_bool ch v).
Proof. intros w. unfold select_send_bool. by destruct chansend. Qed.

Lemma keeps_filt_of_trace {A : Type} p (m : M A) :
  keeps trace m -> keeps (filt p) m.
Proof. intros Hm w. unfold filt. by rewrite Hm. Qed.

Lemma keeps_filt_emit p e : p e = false -> keeps (filt p) (emit e).
Proof.
  intros He w. unfold filt. cbn. rewrite List.filter_app. cbn.
  by rewrite He, app_nil_r.
Qed.

Lemma keeps_filt_log p lvl msg : off_air p -> keeps (filt p) (log lvl msg).
Proof. intros (Hl & _ & _). apply keeps_filt_emit, Hl. Qed.

Ltac filt_tac :=
  repeat first
    [ apply keeps_ret
    | apply keeps_filt_log; assumption
    | apply keeps_filt_emit;
        first [ reflexivity
              | match goal with H : off_air _ |- _ =>
                  destruct H as (? & ? & ?); solve [auto] end ]
    | apply keeps_filt_of_trace;
        first [ apply keeps_trace_get_sds | apply keeps_trace_modify_sds
              | apply keeps_trace_Lock | apply keeps_trace_Unlock
              | apply keeps_trace_CompareAndSwap
              | apply keeps_trace_select_send_Payload
              | apply keeps_trace_select_send_bool ]
    | match goal with H : _ |- keeps _ _ => solve [apply H] end
    | apply keeps_bind
    | match goal with
      | |- forall _, _ => intro
      | |- keeps _ (if ?b then _ else _) => destruct b
      | |- keeps _ (match ?x with _ => _ end) => destruct x
      end ].

Lemma keeps_filt_send_range p payload l :
  off_air p -> keeps (filt p) (send_range payload l).
Proof.
  intros Hp. induction l as [|[id sub] rest IH]; cbn [send_range];
    [apply keeps_ret|].
  apply keeps_bind; [|done]. unfold send_entry. filt_tac.
Qed.

Lemma keeps_filt_send p payload : off_air p -> keeps (filt p) (send payload).
Proof.
  intros Hp. pose proof (fun l => keeps_filt_send_range p payload l Hp) as Hr.
  unfold send, halt_if_empty. filt_tac.
Qed.

Lemma off_air_is_build : off_air is_build.
Proof. by repeat split. Qed.

Lemma off_air_is_lookup : off_air is_lookup.
Proof. by repeat split. Qed.

Lemma processStateDiff_lookups cur par : keeps (filt is_lookup) (processStateDiff cur par).
Proof.
  pose proof off_air_is_lookup as Hp.
  pose proof (fun payload => keeps_filt_send is_lookup payload Hp) as Hs.
  unfold processStateDiff. filt_tac.
Qed.

Lemma processStateDiff_builds cur par w :
  builds (trace (world_of (processStateDiff cur par w)))
  = builds (trace w)
    ++ [EvBuildStateDiff (Block_Root par) (Block_Root cur)
          (Block_Number cur) (Block_Hash cur)].
Proof.
  pose proof off_air_is_build as Hp.
  pose proof (fun payload => keeps_filt_send is_build payload Hp) as Hs.
  unfold processStateDiff. unfold mbind at 1, M_bind at 1. cbn [emit].
  match goal with |- context [world_of (?m ?w0)] =>
    assert (keeps (filt is_build) m) as Hk end.
  { filt_tac. }
  specialize (Hk (with_trace (trace w ++ [EvBuildStateDiff (Block_Root par)
               (Block_Root cur) (Block_Number cur) (Block_Hash cur)]) w)).
  unfold filt in Hk. unfold builds. rewrite Hk. cbn.
  by rewrite List.filter_app.
Qed.

(** ** How the loop finds the parent block *)

Lemma Loop_tail_calls currentBlock (parentBlock : option Block) w0 :
  lookups (trace (world_of (Loop_tail currentBlock parentBlock w0)))
  = lookups (trace w0)
  /\ builds (trace (world_of (Loop_tail currentBlock parentBlock w0)))
     = builds (trace w0)
       ++ (if parentBlock is Some parent
           then [EvBuildStateDiff (Block_Root parent) (Block_Root currentBlock)
                   (Block_Number currentBlock) (Block_Hash currentBlock)]
           else []).
Proof.
  unfold Loop_tail. destruct parentBlock as [parent|].
  - pose proof (processStateDiff_lookups currentBlock parent w0) as Hl.
    pose proof (processStateDiff_builds currentBlock parent w0) as Hb.
    unfold filt in Hl. unfold mbind, M_bind.
    destruct (processStateDiff currentBlock parent w0) as [[e|] w1|msg w1|w1];
      cbn in *; unfold lookups, builds in *;
      rewrite ?List.filter_app; cbn; rewrite ?app_nil_r; done.
  - cbn. unfold lookups, builds. rewrite !List.filter_app. cbn.
    by rewrite !app_nil_r.
Qed.

Lemma Loop_chainEvent_active chainEvent w :
  (subscribers (sds w) =? 0) = false ->
  Loop_chainEvent chainEvent w
  = Loop_tail (ev_Block chainEvent)
      (if cache_hit w (ev_Block chainEvent) then lastBlock (sds w)
       else GetBlockByHash (Block_ParentHash (ev_Block chainEvent)))
      (with_sds (with_lastBlock (Some (ev_Block chainEvent)))
         (with_trace
            ((trace w ++ [EvLog LvlDebug "Event received from chainEventCh"])
             ++ (if cache_hit w (ev_Block chainEvent) then []
                 else [EvGetBlockByHash (Block_ParentHash (ev_Block chainEvent))]))
            w)).
Proof.
  intros Hn. unfold Loop_chainEvent, atomic_LoadInt32, cache_hit, Loop_tail.
  unfold mbind at 1 2, M_bind at 1 2. cbn [log emit].
  cbn [subscribers sds with_trace]. rewrite Hn.
  unfold mbind at 1 2, M_bind at 1 2. cbn [get_sds].
  cbn [sds with_trace].
  destruct (lastBlock (sds w)) as [last|].
  - destruct (bytes_Equal (Block_Hash last) _).
    + cbn [mret M_ret]. unfold mbind at 1, M_bind at 1. cbn [modify_sds].
      by rewrite app_nil_r.
    + by unfold mbind at 1 2, M_bind at 1 2.
  - by unfold mbind at 1 2, M_bind at 1 2.
Qed.

(** X13. With the flag set, a chain event whose parent hash is the hash
    of the cached block is processed without asking the chain: no
    [GetBlockByHash] call is made and the builder is called exactly once,
    from the state root of the cached block to that of the new block,
    however the processing ends. *)
Theorem Loop_chainEvent_cache_hit chainEvent last w :
  (subscribers (sds w) =? 0) = false ->
  lastBlock (sds w) = Some last ->
  Block_Hash last = Block_ParentHash (ev_Block chainEvent) ->
  lookups (trace (world_of (Loop_chainEvent chainEvent w))) = lookups (trace w)
  /\ builds (trace (world_of (Loop_chainEvent chainEvent w)))
     = builds (trace w)
       ++ [EvBuildStateDiff (Block_Root last) (Block_Root (ev_Block chainEvent))
             (Block_Number (ev_Block chainEvent))
             (Block_Hash (ev_Block chainEvent))].
Proof.
  intros Hn Hlast Hhash. rewrite (Loop_chainEvent_active _ _ Hn).
  assert (cache_hit w (ev_Block chainEvent) = true) as ->.
  { unfold cache_hit, bytes_Equal. rewrite Hlast.
    by rewrite bool_decide_eq_true_2. }
  rewrite Hlast.
  match goal with |- context [Loop_tail ?c ?p ?w0] =>
    destruct (Loop_tail_calls c p w0) as [-> ->] end.
  cbn. unfold lookups, builds. rewrite !List.filter_app. cbn.
  by rewrite !app_nil_r.
Qed.

(** X14. With the flag set, a chain event whose parent is not the cached
    block makes the loop ask the chain once, for the parent hash of the
    new block; when the chain has that block the builder is called
    exactly once, from its state root, and when it has not the builder
    is not called at all. *)
Theorem Loop_chainEvent_cache_miss chainEvent w :
  (subscribers (sds w) =? 0) = false ->
  cache_hit w (ev_Block chainEvent) = false ->
  lookups (trace (world_of (Loop_chainEvent chainEvent w)))
  = lookups (trace w)
    ++ [EvGetBlockByHash (Block_ParentHash (ev_Block chainEvent))]
  /\ builds (trace (world_of (Loop_chainEvent chainEvent w)))
     = builds (trace w)
       ++ (if GetBlockByHash (Block_ParentHash (ev_Block chainEvent))
             is Some parent
           then [EvBuildStateDiff (Block_Root parent)
                   (Block_Root (ev_Block chainEvent))
                   (Block_Number (ev_Block chainEvent))
                   (Block_Hash (ev_Block chainEvent))]
           else []).
Proof.
  intros Hn Hmiss. rewrite (Loop_chainEvent_active _ _ Hn), Hmiss.
  match goal with |- context [Loop_tail ?c ?p ?w0] =>
    destruct (Loop_tail_calls c p w0) as [-> ->] end.
  cbn. unfold lookups, builds. rewrite !List.filter_app. cbn.
  by rewrite !app_nil_r.
Qed.

(** X15. With the flag set, a chain event whose parent is neither cached
    nor known to the chain is dropped: the call returns, one line is
    logged at error level, the cache holds the new block, and nothing
    else changes: no call to the builder, no write to any subscriber, no
    change to the registry, the flag, the mutex or any channel. *)
Theorem Loop_chainEvent_parent_missing chainEvent w :
  (subscribers (sds w) =? 0) = false ->
  cache_hit w (ev_Block chainEvent) = false ->
  GetBlockByHash (Block_ParentHash (ev_Block chainEvent)) = None ->
  exists w', Loop_select (RecvChainEvent chainEvent) w = Ret Selecting w'
    /\ sds w' = with_lastBlock (Some (ev_Block chainEvent)) (sds w)
    /\ payloadChans w' = payloadChans w
    /\ boolChans w' = boolChans w
    /\ builder_calls (trace w') = builder_calls (trace w)
    /\ (forall id, same_events id (trace w) (trace w'))
    /\ error_lines (trace w') = S (error_lines (trace w)).
Proof.
  intros Hn Hmiss Hnone. cbn [Loop_select].
  unfold Loop_chainEvent, atomic_LoadInt32. run. rewrite Hn. run.
  unfold cache_hit in Hmiss.
  destruct (lastBlock (sds w)) as [last|] eqn:Hlast.
  - rewrite Hmiss. run. rewrite Hnone. run.
    eexists. split; [reflexivity|]. cbn -[error_lines].
    split; [done|]. do 2 (split; [done|]). split; [trace_tac|].
    split; [intros id; repeat split; trace_tac|].
    unfold error_lines. rewrite !List.filter_app, !length_app. cbn. lia.
  - run. rewrite Hnone. run.
    eexists. split; [reflexivity|]. cbn -[error_lines].
    split; [done|]. do 2 (split; [done|]). split; [trace_tac|].
    split; [intros id; repeat split; trace_tac|].
    unfold error_lines. rewrite !List.filter_app, !length_app. cbn. lia.
Qed.

(** ** What [processStateDiff] returns and when it broadcasts *)

(** X11. When [processStateDiff] returns an error, that error came from
    the builder, from encoding the diff or, when blocks are streamed,
    from encoding the block or its receipts; and nothing was broadcast:
    the service, the registry and every channel are as before and no
    write to a subscriber was attempted.  An error of the empty-diff
    check or of a broadcast is never returned. *)
Theorem processStateDiff_error currentBlock parentBlock w err w' :
  processStateDiff currentBlock parentBlock w = Ret (Some err) w' ->
  (BuildStateDiff (Block_Root parentBlock) (Block_Root currentBlock)
     (Block_Number currentBlock) (Block_Hash currentBlock) = Err err
   \/ (exists stateDiff,
        BuildStateDiff (Block_Root parentBlock) (Block_Root currentBlock)
          (Block_Number currentBlock) (Block_Hash currentBlock) = Ok stateDiff
        /\ (rlp_EncodeStateDiff stateDiff = Err err
            \/ (StreamBlock (sds w) = true
                /\ (Block_EncodeRLP currentBlock = Err err
                    \/ rlp_EncodeReceipts
                         (GetReceiptsByHash (Block_Hash currentBlock))
                       = Err err)))))
  /\ sds w' = sds w
  /\ payloadChans w' = payloadChans w
  /\ boolChans w' = boolChans w
  /\ (forall id, same_events id (trace w) (trace w')).
Proof.
  unfold processStateDiff. run.
  destruct (BuildStateDiff _ _ _ _) as [stateDiff|e] eqn:Hbuild; run.
  2: { intros [= <- <-]. cbn. split; [by left|]. repeat split; trace_tac. }
  destruct (rlp_EncodeStateDiff stateDiff) as [stateDiffRlp|e] eqn:Henc; run.
  2: { intros [= <- <-]. cbn. split; [right; eauto|]. repeat split; trace_tac. }
  destruct (StreamBlock (sds w)) eqn:Hsb; run.
  - destruct (Block_EncodeRLP currentBlock) as [blockRlp|e] eqn:Hblock; run.
    2: { intros [= <- <-]. cbn. split; [right; eauto 8|].
         repeat split; trace_tac. }
    destruct (rlp_EncodeReceipts _) as [receiptsRlp|e] eqn:Hrec; run.
    2: { intros [= <- <-]. cbn. split; [right; eauto 8|].
         repeat split; trace_tac. }
    destruct (isEmptyPayload _ _) as [b [e0|]]; destruct b; cbn [negb];
      unfold mbind, M_bind; cbn [log emit mret M_ret]; try done;
      by destruct (send _ _).
  - destruct (isEmptyPayload _ _) as [b [e0|]]; destruct b; cbn [negb];
      unfold mbind, M_bind; cbn [log emit mret M_ret]; try done;
      by destruct (send _ _).
Qed.

(** X12. A diff whose encoding differs from that of the empty diff of its
    block is broadcast: [processStateDiff] returns nil, every subscriber
    registered at the call gets exactly one write attempt of the payload
    (the encoded diff, with the encoded block and receipts when blocks
    are streamed, and with two empty fields when not) and is either
    served and kept or evicted, and nobody else is written to. *)
Theorem processStateDiff_broadcasts_nonempty_diff currentBlock parentBlock w
    stateDiff stateDiffRlp blockRlp receiptsRlp emptyRlp :
  BuildStateDiff (Block_Root parentBlock) (Block_Root currentBlock)
    (Block_Number currentBlock) (Block_Hash currentBlock) = Ok stateDiff ->
  rlp_EncodeStateDiff stateDiff = Ok stateDiffRlp ->
  (StreamBlock (sds w) = true ->
     Block_EncodeRLP currentBlock = Ok blockRlp
     /\ rlp_EncodeReceipts (GetReceiptsByHash (Block_Hash currentBlock))
        = Ok receiptsRlp) ->
  getEmptyStateDiffRlpForBlock currentBlock = Ok emptyRlp ->
  stateDiffRlp <> emptyRlp ->
  Mutex (sds w) = false ->
  sinks_open w = true ->
  exists w', processStateDiff currentBlock parentBlock w = Ret None w'
    /\ (forall id sub, Subscriptions (sds w) !! id = Some sub ->
          payload_attempts id (trace w') = S (payload_attempts id (trace w))
          /\ (accepted id (if StreamBlock (sds w)
                           then mkPayload stateDiffRlp blockRlp receiptsRlp
                           else mkPayload stateDiffRlp [] []) w w'
              \/ evicted id w w'))
    /\ (forall id, Subscriptions (sds w) !! id = None ->
          same_events id (trace w) (trace w')).
Proof.
  intros Hbuild Henc Hstream Hempty Hne Hm Hopen.
  set (payload := if StreamBlock (sds w)
                  then mkPayload stateDiffRlp blockRlp receiptsRlp
                  else mkPayload stateDiffRlp [] []).
  assert (exists t,
            processStateDiff currentBlock parentBlock w
            = (send payload ;; mret None) (with_trace (trace w ++ t) w)
            /\ (forall id, same_events id (trace w) (trace w ++ t)))
    as (t & Hrun & Hquiet).
  { unfold processStateDiff, payload. rewrite Hbuild, Henc.
    assert (forall p, StateDiffRlp p = stateDiffRlp ->
              isEmptyPayload p currentBlock = (false, None)) as Hcheck.
    { intros p Hp. unfold isEmptyPayload, reflect_DeepEqual.
      rewrite Hempty, Hp. by rewrite bool_decide_eq_false_2. }
    unfold mbind at 1 2 3, M_bind at 1 2 3. cbn [emit get_sds].
    destruct (StreamBlock (sds w)) eqn:Hsb; cbn [StreamBlock sds with_trace].
    - destruct (Hstream eq_refl) as [-> Hr]. rewrite Hsb.
      unfold mbind at 1, M_bind at 1. cbn [emit]. rewrite Hr.
      cbn [mret M_ret]. rewrite Hcheck by done. cbn [negb].
      unfold mbind at 1, M_bind at 1. cbn [mret M_ret].
      exists ([EvBuildStateDiff (Block_Root parentBlock) (Block_Root currentBlock)
                 (Block_Number currentBlock) (Block_Hash currentBlock)]
              ++ [EvGetReceiptsByHash (Block_Hash currentBlock)]).
      rewrite !(assoc_L (++)). split; [done|].
      intros id. repeat split; trace_tac.
    - rewrite Hsb. cbn [mret M_ret]. rewrite Hcheck by done. cbn [negb].
      unfold mbind at 1, M_bind at 1. cbn [mret M_ret].
      exists [EvBuildStateDiff (Block_Root parentBlock) (Block_Root currentBlock)
                (Block_Number currentBlock) (Block_Hash currentBlock)].
      split; [done|]. intros id. repeat split; trace_tac. }
  destruct (send_spec payload (with_trace (trace w ++ t) w) Hm Hopen)
    as (w' & Hsend & _ & _ & _ & _ & _ & _ & _ & Hout & Hin).
  exists w'. split.
  { rewrite Hrun. unfold mbind, M_bind. by rewrite Hsend. }
  cbn in Hout, Hin. split.
  - intros id sub Hid. destruct (Hin id sub Hid) as (Hp & Hcase & _).
    destruct (Hquiet id) as (Hq0 & Hp0 & Hd0).
    split; [congruence|].
    unfold accepted, evicted in *. cbn in Hcase.
    destruct Hcase as [(? & ? & ?)|(? & ? & ?)]; [left|right];
      repeat split; congruence.
  - intros id Hid. eapply same_events_trans; [apply Hquiet|by apply Hout].
Qed.

(** ** How the loop ends *)

Lemma Loop_for_app pre more w :
  Loop_for (pre ++ more) w
  = match Loop_for pre w with
    | Ret Selecting w1 => Loop_for more w1
    | o => o
    end.
Proof.
  revert w. induction pre as [|c pre IH]; intros w; [done|].
  cbn [app Loop_for]. unfold mbind, M_bind.
  destruct (Loop_select c w) as [[|] w1|msg w1|w1]; [apply IH|done..].
Qed.

Lemma Loop_unfold cases w :
  Loop cases w
  = match Loop_for cases (with_trace (trace w ++ [EvSubscribeChainEvent]) w) with
    | Ret Selecting w1 => Ret Selecting w1
    | Ret Returned w1 =>
        Ret Returned (with_trace (trace w1 ++ [EvChainEventUnsubscribe]) w1)
    | Panic msg w1 => Panic msg w1
    | Park w1 => Park w1
    end.
Proof.
  unfold Loop, mbind, M_bind. cbn.
  by destruct (Loop_for cases _) as [[|] w1|msg w1|w1].
Qed.

(** X17. Once the loop has returned it stays returned: select cases that
    come after the one that ended it are not consumed and change
    nothing. *)
Theorem Loop_returned_is_final pre more w w1 :
  Loop pre w = Ret Returned w1 ->
  Loop (pre ++ more) w = Ret Returned w1.
Proof.
  rewrite !Loop_unfold, Loop_for_app.
  by destruct (Loop_for pre _) as [[|] w2|msg w2|w2].
Qed.

(** X16. When the loop is waiting in its [select], with the mutex free
    and no registered sink closed, an error of the chain-event
    subscription or a shutdown signal ends it: [close] runs, the loop
    returns, the deferred unsubscription from the chain events is the
    last thing it does, the registry is empty, one non-blocking
    termination signal was attempted for every subscriber that was
    registered and none for anybody else, no payload was written, the
    builder was not called, and whatever follows in the feed is
    ignored.  The signals are real writes: a control sink that no other
    registered subscriber holds is left in the state one non-blocking
    send of [true] leaves it in, taken or not. *)
Theorem Loop_shutdown pre c rest w w1 :
  Loop pre w = Ret Selecting w1 ->
  is_shutdown c = true ->
  Mutex (sds w1) = false ->
  sinks_open w1 = true ->
  exists w', Loop (pre ++ c :: rest) w = Ret Returned w'
    /\ last (trace w') = Some EvChainEventUnsubscribe
    /\ Subscriptions (sds w') = ∅
    /\ Mutex (sds w') = false
    /\ (forall id, quit_attempts id (trace w')
          = if Subscriptions (sds w1) !! id is Some _
            then S (quit_attempts id (trace w1))
            else quit_attempts id (trace w1))
    /\ (forall id sub, Subscriptions (sds w1) !! id = Some sub ->
          private_control w1 id sub -> signalled id sub w1 w')
    /\ (forall id, payload_attempts id (trace w') = payload_attempts id (trace w1))
    /\ builder_calls (trace w') = builder_calls (trace w1).
Proof.
  intros Hpre Hc Hm Hopen. rewrite Loop_unfold in Hpre.
  rewrite Loop_unfold, Loop_for_app.
  destruct (Loop_for pre _) as [[|] w2|msg w2|w2]; try done.
  injection Hpre as ->. cbn [Loop_for]. unfold mbind at 1, M_bind at 1.
  assert (exists t w0, Loop_select c w1 = (close ;; mret Returned) w0
            /\ w0 = with_trace (trace w1 ++ [t]) w1
            /\ (forall id, same_events id (trace w1) (trace w0))
            /\ (forall id, quit_events id (trace w0) = quit_events id (trace w1))
            /\ builder_calls (trace w0) = builder_calls (trace w1))
    as (t & w0 & -> & Hw0 & Hsame & Hqe & Hb).
  { assert (forall lvl msg,
              (forall id, same_events id (trace w1)
                            (trace w1 ++ [EvLog lvl msg]))
              /\ (forall id, quit_events id (trace w1 ++ [EvLog lvl msg])
                              = quit_events id (trace w1))
              /\ builder_calls (trace w1 ++ [EvLog lvl msg])
                 = builder_calls (trace w1)) as Hlog.
    { intros lvl msg. split; [intros id; repeat split; trace_tac|].
      split; [|trace_tac].
      intros id. rewrite quit_events_snoc. cbn. by rewrite app_nil_r. }
    destruct c as [ev|e|]; [done|..]; cbn [Loop_select];
      unfold mbind at 1, M_bind at 1; cbn [log emit];
      eexists _, _; (split; [reflexivity|]); (split; [reflexivity|]);
      apply Hlog. }
  destruct (close_spec w0) as (w3 & Hclose & Hm3 & He3 & _ & _ & _ & Hb3 & Hp3 & Hq3).
  { by subst w0. }
  { by subst w0. }
  unfold mbind, M_bind. rewrite Hclose. cbn.
  eexists. split; [reflexivity|]. cbn.
  split; [apply last_snoc|]. do 2 (split; [done|]).
  split; [|split; [|split]].
  - intros id. rewrite quit_attempts_snoc. cbn. rewrite Nat.add_0_r, Hq3.
    destruct (Hsame id) as (-> & _ & _). by subst w0.
  - intros id sub Hid Hpriv.
    assert (signalled id sub w0 w3) as Hsig.
    { apply (close_control w0 id sub w3 Hclose); by subst w0. }
    specialize (Hqe id). subst w0. unfold signalled in *.
    cbn in Hsig, Hqe |- *.
    destruct (chansend (boolChans w1 !! sub_QuitChan sub) true); [| |done];
      destruct Hsig as [Hb' Hq']; (split; [done|]);
      rewrite quit_events_snoc; cbn; by rewrite app_nil_r, Hq', Hqe.
  - intros id. rewrite payload_attempts_snoc. cbn. rewrite Nat.add_0_r, Hp3.
    by destruct (Hsame id) as (_ & -> & _).
  - rewrite builder_calls_snoc. cbn. rewrite Nat.add_0_r. congruence.
Qed.

(** ** When the work stops *)

Lemma Loop_gate_inactive chainEvents w :
  subscribers (sds w) = 0 ->
  exists w', Loop (RecvChainEvent <$> chainEvents) w = Ret Selecting w'
    /\ builder_calls (trace w') = builder_calls (trace w)
    /\ sds w' = sds w.
Proof.
  intros H0. rewrite Loop_unfold.
  destruct (Loop_for_gate_inactive chainEvents
              (with_trace (trace w ++ [EvSubscribeChainEvent]) w) H0)
    as (w1 & -> & Hs & _ & _ & Hc).
  exists w1. split; [done|]. split; [|done]. rewrite Hc. cbn. trace_tac.
Qed.

(** X18. Unsubscribing the only subscriber stops the work: the call
    returns nil, leaves the registry empty and the flag at 0, and every
    chain event the loop receives from then on is discarded without a
    call to the builder. *)
Theorem last_Unsubscribe_halts_processing id sub w :
  Mutex (sds w) = false ->
  Subscriptions (sds w) = {[ id := sub ]} ->
  subscribers (sds w) = 1 ->
  exists w1, Unsubscribe id w = Ret None w1
    /\ Subscriptions (sds w1) = ∅
    /\ subscribers (sds w1) = 0
    /\ (forall chainEvents,
          exists w2, Loop (RecvChainEvent <$> chainEvents) w1 = Ret Selecting w2
            /\ builder_calls (trace w2) = builder_calls (trace w1)).
Proof.
  intros Hm Hs H1.
  destruct (Unsubscribe_present id w Hm) as (w1 & Hrun & _ & Hs1 & Hn1 & _).
  { rewrite Hs, lookup_singleton_eq. eauto. }
  rewrite Hs, delete_singleton_eq in Hs1.
  assert (subscribers (sds w1) = 0) as H0.
  { rewrite Hn1, Hs, delete_singleton_eq, H1. unfold halted.
    by rewrite map_size_empty. }
  exists w1. do 3 (split; [done|]).
  intros chainEvents.
  destruct (Loop_gate_inactive chainEvents w1 H0) as (w2 & ? & ? & _).
  by exists w2.
Qed.

(** X19. A broadcast that finds every payload sink blocked evicts every
    subscriber and stops the work: [send] returns with the registry
    empty and the flag at 0, and every chain event the loop receives
    from then on is discarded without a call to the builder. *)
Theorem send_evicting_all_halts_processing payload w :
  Mutex (sds w) = false ->
  sinks_open w = true ->
  subscribers (sds w) = 0 \/ subscribers (sds w) = 1 ->
  (forall id sub, Subscriptions (sds w) !! id = Some sub ->
     chan_full (payloadChans w !! PayloadChan sub) = true) ->
  exists w1, send payload w = Ret tt w1
    /\ Subscriptions (sds w1) = ∅
    /\ subscribers (sds w1) = 0
    /\ (forall chainEvents,
          exists w2, Loop (RecvChainEvent <$> chainEvents) w1 = Ret Selecting w2
            /\ builder_calls (trace w2) = builder_calls (trace w1)).
Proof.
  intros Hm Hopen Hflag Hfull.
  destruct (send_spec payload w Hm Hopen)
    as (w1 & Hrun & _ & _ & _ & _ & Hn & _ & Hsub & _ & Hin).
  assert (Subscriptions (sds w1) = ∅) as He.
  { apply map_eq. intros id. rewrite lookup_empty.
    destruct (Subscriptions (sds w) !! id) as [sub|] eqn:Hid.
    - destruct (Hin id sub Hid) as (_ & _ & Hev).
      by destruct (Hev (Hfull id sub Hid)) as (_ & _ & ?).
    - destruct (Hsub id) as [?|Heq]; [done|congruence]. }
  assert (subscribers (sds w1) = 0) as H0.
  { rewrite Hn. by apply halted_empty. }
  exists w1. do 3 (split; [done|]).
  intros chainEvents.
  destruct (Loop_gate_inactive chainEvents w1 H0) as (w2 & ? & ? & _).
  by exists w2.
Qed.

(** ** [Subscribe] against a broadcast *)

(** C4 (as the code has it). [Subscribe] sets the flag before it takes
    the mutex.  On a service with no subscriber, a broadcast that runs
    between the two leaves the new subscriber registered with the flag
    at 0: the registry is not empty and the gate is closed, and every
    chain event the loop receives from then on is discarded without a
    call to the builder. *)
Theorem Subscribe_overtaken_leaves_gate_closed id sub quitChan payload w :
  Mutex (sds w) = false ->
  Subscriptions (sds w) = ∅ ->
  subscribers (sds w) = 0 ->
  (forall w0, Subscribe id sub quitChan w0
              = (Subscribe_flag ;; Subscribe_register id sub quitChan) w0)
  /\ exists w1 w2 w3,
       Subscribe_flag w = Ret tt w1
       /\ send payload w1 = Ret tt w2
       /\ Subscribe_register id sub quitChan w2 = Ret tt w3
       /\ Subscriptions (sds w3) = {[ id := mkSubscription sub quitChan ]}
       /\ subscribers (sds w3) = 0
       /\ gate_ok w3 = false
       /\ (forall chainEvents,
             exists w4,
               Loop (RecvChainEvent <$> chainEvents) w3 = Ret Selecting w4
               /\ builder_calls (trace w4) = builder_calls (trace w3)).
Proof.
  intros Hm He H0. split.
  { intros w0.
    unfold Subscribe, Subscribe_flag, Subscribe_register, mbind, M_bind,
      atomic_CompareAndSwapInt32, log, emit.
    cbn. by destruct (subscribers (sds w0) =? 0). }
  eexists _, _, _. split.
  { unfold Subscribe_flag, atomic_CompareAndSwapInt32. run.
    rewrite H0, Z.eqb_refl. run. reflexivity. }
  split.
  { unfold send, Lock. run. rewrite Hm. run. rewrite He, range_empty. run.
    unfold halt_if_empty, atomic_CompareAndSwapInt32. run.
    rewrite He, map_size_empty, Nat.eqb_refl. run. rewrite Z.eqb_refl. run.
    unfold Unlock. run. reflexivity. }
  split.
  { unfold Subscribe_register, Lock, Unlock. run. reflexivity. }
  match goal with |- Subscriptions (sds ?w3) = _ /\ _ => set (W3 := w3) end.
  assert (Subscriptions (sds W3) = {[ id := mkSubscription sub quitChan ]})
    as Hs3 by (subst W3; cbn; by rewrite He, insert_empty).
  assert (subscribers (sds W3) = 0) as Hn3 by done.
  split; [done|]. split; [done|]. split.
  - unfold gate_ok. by rewrite Hn3, Hs3, map_size_singleton.
  - intros chainEvents.
    destruct (Loop_gate_inactive chainEvents W3 Hn3) as (w4 & ? & ? & _).
    by exists w4.
Qed.

End Proofs.

(** ** [Subscribe] sets the flag outside the critical section *)

Lemma Subscribe_halves id sub quitChan w :
  Subscribe id sub quitChan w
  = (Subscribe_flag ;; Subscribe_register id sub quitChan) w.
Proof.
  unfold Subscribe, Subscribe_flag, Subscribe_register, mbind, M_bind,
    atomic_CompareAndSwapInt32, log, emit.
  cbn. by destruct (subscribers (sds w) =? 0).
Qed.

(** The theorems above are about calls that run from start to end on
    their own.  A broadcast that runs between the two halves of a
    [Subscribe] on an empty registry resets the flag, and the new
    subscriber ends up registered behind a closed gate. *)
Remark Subscribe_overtaken_by_send :
  exists w1 w2 w3,
    Subscribe_flag Demo.fresh = Ret tt w1
    /\ @send Demo.go_range Demo.payload1 w1 = Ret tt w2
    /\ Subscribe_register "S1" 2 3 w2 = Ret tt w3
    /\ Subscriptions (sds w3) !! "S1" = Some Demo.S1
    /\ subscribers (sds w3) = 0.
Proof.
  eexists _, _, _.
  split. { vm_compute. reflexivity. }
  split. { vm_compute. reflexivity. }
  split. { vm_compute. reflexivity. }
  split; vm_compute; reflexivity.
Qed.

(** ** The theorems at work on the small chain *)

Lemma Loop_without_subscribers_never_builds_witness :
  subscribers (sds Demo.fresh) = 0
  /\ exists w',
       @Loop Demo.builder Demo.chain Demo.encoder Demo.go_range
         (RecvChainEvent <$> [mkChainEvent Demo.block1; mkChainEvent Demo.block2])
         Demo.fresh = Ret Selecting w'
       /\ builder_calls (trace w') = builder_calls (trace Demo.fresh)
       /\ sds w' = sds Demo.fresh
       /\ payloadChans w' = payloadChans Demo.fresh
       /\ boolChans w' = boolChans Demo.fresh.
Proof.
  split; [reflexivity|].
  apply (@Loop_without_subscribers_never_builds
           Demo.builder Demo.chain Demo.encoder Demo.go_range).
  reflexivity.
Defined.

Lemma processStateDiff_suppresses_empty_diff_witness :
  exists err w',
    @processStateDiff Demo.builder Demo.chain Demo.encoder Demo.go_range
      Demo.block2 Demo.block1 Demo.two_subscribers = Ret err w'
    /\ sds w' = sds Demo.two_subscribers
    /\ payloadChans w' = payloadChans Demo.two_subscribers
    /\ boolChans w' = boolChans Demo.two_subscribers
    /\ (forall id, same_events id (trace Demo.two_subscribers) (trace w')).
Proof.
  apply (@processStateDiff_suppresses_empty_diff
           Demo.builder Demo.chain Demo.encoder Demo.go_range
           Demo.block2 Demo.block1 Demo.two_subscribers
           (mkStateDiff 2 [x02] []) [x02; x02]);
    reflexivity.
Defined.

Lemma send_evicts_stalled_subscriber_witness :
  exists w', @send Demo.go_range Demo.payload1 Stalled.world = Ret tt w'
    /\ payload_attempts "S3" (trace w')
       = S (payload_attempts "S3" (trace Stalled.world))
    /\ (accepted "S3" Demo.payload1 Stalled.world w'
        \/ evicted "S3" Stalled.world w')
    /\ (chan_full (payloadChans Stalled.world !! PayloadChan Stalled.S3) = true ->
          evicted "S3" Stalled.world w')
    /\ (private_control Stalled.world "S3" Stalled.S3 ->
          (accepted "S3" Demo.payload1 Stalled.world w' ->
             boolChans w' !! sub_QuitChan Stalled.S3
             = boolChans Stalled.world !! sub_QuitChan Stalled.S3)
          /\ (evicted "S3" Stalled.world w' ->
                signalled "S3" Stalled.S3 Stalled.world w'))
    /\ (forall payload' w1,
          Mutex (sds w1) = false -> sinks_open w1 = true ->
          Subscriptions (sds w1) !! "S3" = None ->
          exists w2, @send Demo.go_range payload' w1 = Ret tt w2
            /\ payload_attempts "S3" (trace w2) = payload_attempts "S3" (trace w1)
            /\ deliveries "S3" (trace w2) = deliveries "S3" (trace w1)
            /\ Subscriptions (sds w2) !! "S3" = None).
Proof.
  apply (@send_evicts_stalled_subscriber Demo.go_range Demo.payload1
           Stalled.world "S3" Stalled.S3);
    vm_compute; reflexivity.
Defined.

(** On that world the signal lands: the payload sink of S3 takes
    nothing, its control sink holds [true] after the broadcast, and S3
    is gone while S1 has its payload. *)
Remark stalled_subscriber_signalled :
  exists w', @send Demo.go_range Demo.payload1 Stalled.world = Ret tt w'
    /\ boolChans w' !! 7%positive = Some (mkChan 1%nat [true] 0%nat false)
    /\ payloadChans w' !! 4%positive = Some (mkChan 0%nat [] 0%nat false)
    /\ payloadChans w' !! 2%positive
       = Some (mkChan 1%nat [Demo.payload1] 0%nat false)
    /\ Subscriptions (sds w') !! "S3" = None
    /\ Subscriptions (sds w') !! "S1" = Some Demo.S1.
Proof.
  eexists. split. { vm_compute. reflexivity. }
  repeat split; vm_compute; reflexivity.
Qed.

Lemma gate_follows_registry_witness :
  (forall id sub quitChan,
     exists w', Subscribe id sub quitChan Demo.two_subscribers = Ret tt w'
       /\ subscribers (sds w') = 1
       /\ Subscriptions (sds w') <> ∅
       /\ gate_ok w' = true)
  /\ (forall id, is_Some (Subscriptions (sds Demo.two_subscribers) !! id) ->
       exists w', Unsubscribe id Demo.two_subscribers = Ret None w'
         /\ (Subscriptions (sds w') = ∅ -> subscribers (sds w') = 0)
         /\ (gate_ok Demo.two_subscribers = true -> gate_ok w' = true))
  /\ (forall payload, sinks_open Demo.two_subscribers = true ->
       exists w', @send Demo.go_range payload Demo.two_subscribers = Ret tt w'
         /\ (Subscriptions (sds w') = ∅ -> subscribers (sds w') = 0)
         /\ (gate_ok Demo.two_subscribers = true -> gate_ok w' = true)).
Proof.
  apply (@gate_follows_registry Demo.go_range Demo.two_subscribers).
  - reflexivity.
  - right. reflexivity.
Defined.

Lemma close_empties_registry_keeps_flag_witness :
  exists w', @close Demo.go_range Demo.two_subscribers = Ret tt w'
    /\ Subscriptions (sds w') = ∅
    /\ (forall id, quit_attempts id (trace w')
          = if Subscriptions (sds Demo.two_subscribers) !! id is Some _
            then S (quit_attempts id (trace Demo.two_subscribers))
            else quit_attempts id (trace Demo.two_subscribers))
    /\ subscribers (sds w') = 1.
Proof.
  apply (@close_empties_registry_keeps_flag Demo.go_range Demo.two_subscribers).
  - reflexivity.
  - vm_compute. reflexivity.
Defined.

Lemma Stop_closes_once_then_panics_witness :
  exists w1, Stop Demo.fresh = Ret None w1
    /\ chan_closed (boolChans w1 !! QuitChan (sds w1)) = true
    /\ exists w2, Stop w1 = Panic "close of closed channel" w2.
Proof.
  apply (Stop_closes_once_then_panics Demo.fresh (mkChan 0%nat [] 0%nat false));
    reflexivity.
Defined.

Lemma Unsubscribe_missing_or_present_witness :
  (Subscriptions (sds Demo.two_subscribers) !! "S9" = None ->
     exists err w', Unsubscribe "S9" Demo.two_subscribers = Ret (Some err) w'
       /\ Subscriptions (sds w') = Subscriptions (sds Demo.two_subscribers)
       /\ subscribers (sds w') = subscribers (sds Demo.two_subscribers))
  /\ (is_Some (Subscriptions (sds Demo.two_subscribers) !! "S9") ->
       exists w', Unsubscribe "S9" Demo.two_subscribers = Ret None w'
         /\ Subscriptions (sds w')
            = delete "S9" (Subscriptions (sds Demo.two_subscribers))).
Proof.
  apply (Unsubscribe_missing_or_present "S9" Demo.two_subscribers).
  reflexivity.
Defined.

Lemma processStateDiff_sends_when_check_fails_witness :
  exists t,
    @processStateDiff Demo.builder_heightless Demo.chain Demo.encoder
      Demo.go_range Demo.block_neg Demo.genesis Demo.two_subscribers_streaming
    = (@send Demo.go_range (mkPayload [x00; x09; xa9] [x09] []) ;; mret None)
        (with_trace (trace Demo.two_subscribers_streaming ++ t)
           Demo.two_subscribers_streaming)
    /\ In (EvLog LvlWarn "Error checking if payload is empty") t
    /\ (forall id, same_events id (trace Demo.two_subscribers_streaming)
                     (trace Demo.two_subscribers_streaming ++ t)).
Proof.
  apply (@processStateDiff_sends_when_check_fails
           Demo.builder_heightless Demo.chain Demo.encoder Demo.go_range
           Demo.block_neg Demo.genesis Demo.two_subscribers_streaming
           (mkStateDiff 0 [x09] [[xa9]]) [x00; x09; xa9] [x09] []
           "rlp: cannot encode negative big.Int").
  - reflexivity.
  - reflexivity.
  - intros _. split; reflexivity.
  - reflexivity.
Defined.

Lemma Unsubscribe_missing_id_keeps_mutex_witness :
  exists err w', Unsubscribe "S1" Demo.fresh = Ret (Some err) w'
    /\ Mutex (sds w') = true
    /\ (forall id' sub quitChan,
          exists w'', Subscribe id' sub quitChan w' = Park w'').
Proof.
  apply (Unsubscribe_missing_id_keeps_mutex "S1" Demo.fresh); reflexivity.
Defined.

(** ** Runs that end otherwise than the specification says *)

(** C6. The second [Stop] on a new service panics. *)
Lemma Stop_twice_panics :
  exists w1 w2,
    Stop Demo.fresh = Ret None w1
    /\ Stop w1 = Panic "close of closed channel" w2.
Proof.
  eexists _, _. split.
  - vm_compute. reflexivity.
  - vm_compute. reflexivity.
Qed.

(** C8. A chain event received on a new service, whose flag is still
    zero, does not reach the cache. *)
Lemma Loop_chainEvent_gate_inactive_skips_cache :
  cached (world_of
            (@Loop_chainEvent Demo.builder Demo.chain Demo.encoder Demo.go_range
               (mkChainEvent Demo.block1) Demo.fresh))
  <> Some Demo.block1.
Proof. vm_compute. discriminate. Qed.

(** C9. The empty diff of [block_neg] cannot be encoded, the check
    fails, and S1 receives the payload all the same. *)
Lemma processStateDiff_check_failure_delivers :
  @isEmptyPayload Demo.encoder (mkPayload [x00; x09; xa9] [] []) Demo.block_neg
  = (false, Some "rlp: cannot encode negative big.Int")
  /\ exists w',
       @processStateDiff Demo.builder_heightless Demo.chain Demo.encoder
         Demo.go_range Demo.block_neg Demo.genesis Demo.two_subscribers
       = Ret None w'
       /\ deliveries "S1" (trace w')
          = [EvPayload "S1" (mkPayload [x00; x09; xa9] [] []) true].
Proof.
  split; [reflexivity|].
  eexists. split.
  - vm_compute. reflexivity.
  - vm_compute. reflexivity.
Qed.

(** ** The further theorems at work on the small chain *)

Lemma Subscribe_then_Unsubscribe_witness :
  exists w1 w2,
    Subscribe "S3" 6 7 Demo.two_subscribers = Ret tt w1
    /\ Unsubscribe "S3" w1 = Ret None w2
    /\ Subscriptions (sds w2) = Subscriptions (sds Demo.two_subscribers)
    /\ subscribers (sds w2) = subscribers (sds Demo.two_subscribers)
    /\ Mutex (sds w2) = false
    /\ payloadChans w2 = payloadChans Demo.two_subscribers
    /\ boolChans w2 = boolChans Demo.two_subscribers.
Proof.
  apply (Subscribe_then_Unsubscribe "S3" 6 7 Demo.two_subscribers);
    vm_compute; reflexivity.
Defined.

Lemma Subscribe_overwrites_witness :
  exists w1 w2,
    Subscribe "S1" 2 3 Demo.fresh = Ret tt w1
    /\ Subscribe "S1" 4 5 w1 = Ret tt w2
    /\ Subscriptions (sds w2)
       = <["S1" := mkSubscription 4 5]> (Subscriptions (sds Demo.fresh))
    /\ size (Subscriptions (sds w2)) = size (Subscriptions (sds w1))
    /\ subscribers (sds w2)
       = (if subscribers (sds Demo.fresh) =? 0 then 1
          else subscribers (sds Demo.fresh)).
Proof.
  apply (Subscribe_overwrites "S1" 2 3 4 5 Demo.fresh). reflexivity.
Defined.

Lemma Unsubscribe_twice_witness :
  exists w1 err w2,
    Unsubscribe "S1" Demo.two_subscribers = Ret None w1
    /\ Unsubscribe "S1" w1 = Ret (Some err) w2
    /\ Subscriptions (sds w2)
       = delete "S1" (Subscriptions (sds Demo.two_subscribers))
    /\ Mutex (sds w2) = true.
Proof.
  apply (Unsubscribe_twice "S1" Demo.two_subscribers).
  - reflexivity.
  - exists Demo.S1. vm_compute. reflexivity.
Defined.

Lemma send_empty_registry_witness :
  exists w', @send Demo.go_range Demo.payload1 Demo.fresh = Ret tt w'
    /\ Mutex (sds w') = false
    /\ Subscriptions (sds w') = ∅
    /\ subscribers (sds w')
       = (if subscribers (sds Demo.fresh) =? 1 then 0
          else subscribers (sds Demo.fresh))
    /\ payloadChans w' = payloadChans Demo.fresh
    /\ boolChans w' = boolChans Demo.fresh
    /\ (forall id, same_events id (trace Demo.fresh) (trace w')).
Proof.
  apply (@send_empty_registry Demo.go_range Demo.payload1 Demo.fresh);
    reflexivity.
Defined.

Lemma close_empty_registry_witness :
  @close Demo.go_range Demo.fresh = Ret tt Demo.fresh.
Proof.
  apply (@close_empty_registry Demo.go_range Demo.fresh); reflexivity.
Defined.

Lemma gate_sound_kept_witness :
  (forall id sub quitChan,
     gate_sound (world_of (Subscribe id sub quitChan Demo.two_subscribers)) = true)
  /\ (forall id, gate_sound (world_of (Unsubscribe id Demo.two_subscribers)) = true)
  /\ (forall payload,
        gate_sound (world_of (@send Demo.go_range payload Demo.two_subscribers))
        = true)
  /\ gate_sound (world_of (@close Demo.go_range Demo.two_subscribers)) = true
  /\ gate_sound (world_of (Stop Demo.two_subscribers)) = true
  /\ (forall cases,
        gate_sound
          (world_of (@Loop Demo.builder Demo.chain Demo.encoder Demo.go_range
                       cases Demo.two_subscribers)) = true).
Proof.
  apply (@gate_sound_kept Demo.builder Demo.chain Demo.encoder Demo.go_range
           Demo.two_subscribers).
  vm_compute. reflexivity.
Defined.

Lemma send_delivers_to_private_sink_witness :
  exists w' c',
    @send Demo.go_range Demo.payload1 Demo.two_subscribers = Ret tt w'
    /\ chansend (payloadChans Demo.two_subscribers !! PayloadChan Demo.S1)
         Demo.payload1 = SendOk c'
    /\ payloadChans w' !! PayloadChan Demo.S1 = Some c'
    /\ accepted "S1" Demo.payload1 Demo.two_subscribers w'
    /\ Subscriptions (sds w') !! "S1" = Some Demo.S1.
Proof.
  apply (@send_delivers_to_private_sink Demo.go_range Demo.payload1
           Demo.two_subscribers "S1" Demo.S1).
  - reflexivity.
  - vm_compute. reflexivity.
  - vm_compute. reflexivity.
  - intros j s Hj Hne. cbn in Hj.
    apply lookup_insert_Some in Hj as [[_ <-]|[_ Hj]]; [discriminate|].
    apply lookup_insert_Some in Hj as [[<- _]|[_ Hj]]; [done|].
    by rewrite lookup_empty in Hj.
  - vm_compute. reflexivity.
Defined.

Lemma processStateDiff_error_witness :
  (BuildStateDiff (Builder := Scene.builder_failing)
     (Block_Root Demo.genesis) (Block_Root Demo.block1)
     (Block_Number Demo.block1) (Block_Hash Demo.block1)
   = Err "state trie not available"
   \/ (exists stateDiff,
        BuildStateDiff (Builder := Scene.builder_failing)
          (Block_Root Demo.genesis) (Block_Root Demo.block1)
          (Block_Number Demo.block1) (Block_Hash Demo.block1) = Ok stateDiff
        /\ (rlp_EncodeStateDiff (Encoder := Demo.encoder) stateDiff
            = Err "state trie not available"
            \/ (StreamBlock (sds Demo.two_subscribers) = true
                /\ (Block_EncodeRLP (Encoder := Demo.encoder) Demo.block1
                    = Err "state trie not available"
                    \/ rlp_EncodeReceipts (Encoder := Demo.encoder)
                         (GetReceiptsByHash (blockChain := Demo.chain)
                            (Block_Hash Demo.block1))
                       = Err "state trie not available")))))
  /\ sds (with_trace [EvBuildStateDiff [xa0] [xa1] 1 [x01]] Demo.two_subscribers)
     = sds Demo.two_subscribers
  /\ payloadChans
       (with_trace [EvBuildStateDiff [xa0] [xa1] 1 [x01]] Demo.two_subscribers)
     = payloadChans Demo.two_subscribers
  /\ boolChans
       (with_trace [EvBuildStateDiff [xa0] [xa1] 1 [x01]] Demo.two_subscribers)
     = boolChans Demo.two_subscribers
  /\ (forall id,
        same_events id (trace Demo.two_subscribers)
          (trace (with_trace [EvBuildStateDiff [xa0] [xa1] 1 [x01]]
                    Demo.two_subscribers))).
Proof.
  apply (@processStateDiff_error Scene.builder_failing Demo.chain Demo.encoder
           Demo.go_range Demo.block1 Demo.genesis Demo.two_subscribers
           "state trie not available"
           (with_trace [EvBuildStateDiff [xa0] [xa1] 1 [x01]]
              Demo.two_subscribers)).
  reflexivity.
Defined.

Lemma processStateDiff_broadcasts_nonempty_diff_witness :
  exists w',
    @processStateDiff Demo.builder Demo.chain Demo.encoder Demo.go_range
      Demo.block1 Demo.genesis Demo.two_subscribers = Ret None w'
    /\ (forall id sub,
          Subscriptions (sds Demo.two_subscribers) !! id = Some sub ->
          payload_attempts id (trace w')
          = S (payload_attempts id (trace Demo.two_subscribers))
          /\ (accepted id (if StreamBlock (sds Demo.two_subscribers)
                           then mkPayload [x01; x01; xa1] [] []
                           else mkPayload [x01; x01; xa1] [] [])
                Demo.two_subscribers w'
              \/ evicted id Demo.two_subscribers w'))
    /\ (forall id, Subscriptions (sds Demo.two_subscribers) !! id = None ->
          same_events id (trace Demo.two_subscribers) (trace w')).
Proof.
  apply (@processStateDiff_broadcasts_nonempty_diff
           Demo.builder Demo.chain Demo.encoder Demo.go_range
           Demo.block1 Demo.genesis Demo.two_subscribers
           (mkStateDiff 1 [x01] [[xa1]]) [x01; x01; xa1] [] [] [x01; x01]).
  - reflexivity.
  - reflexivity.
  - intros Hstream. vm_compute in Hstream. discriminate Hstream.
  - reflexivity.
  - discriminate.
  - reflexivity.
  - vm_compute. reflexivity.
Defined.

Lemma Loop_chainEvent_cache_hit_witness :
  lookups (trace (world_of
            (@Loop_chainEvent Demo.builder Demo.chain Demo.encoder Demo.go_range
               (mkChainEvent Demo.block2) Scene.after_block1)))
  = lookups (trace Scene.after_block1)
  /\ builds (trace (world_of
              (@Loop_chainEvent Demo.builder Demo.chain Demo.encoder
                 Demo.go_range (mkChainEvent Demo.block2) Scene.after_block1)))
     = builds (trace Scene.after_block1)
       ++ [EvBuildStateDiff (Block_Root Demo.block1) (Block_Root Demo.block2)
             (Block_Number Demo.block2) (Block_Hash Demo.block2)].
Proof.
  apply (@Loop_chainEvent_cache_hit Demo.builder Demo.chain Demo.encoder
           Demo.go_range (mkChainEvent Demo.block2) Demo.block1
           Scene.after_block1);
    reflexivity.
Defined.

Lemma Loop_chainEvent_cache_miss_witness :
  lookups (trace (world_of
            (@Loop_chainEvent Demo.builder Demo.chain Demo.encoder Demo.go_range
               (mkChainEvent Demo.block1) Demo.two_subscribers)))
  = lookups (trace Demo.two_subscribers)
    ++ [EvGetBlockByHash (Block_ParentHash Demo.block1)]
  /\ builds (trace (world_of
              (@Loop_chainEvent Demo.builder Demo.chain Demo.encoder
                 Demo.go_range (mkChainEvent Demo.block1) Demo.two_subscribers)))
     = builds (trace Demo.two_subscribers)
       ++ (if GetBlockByHash (blockChain := Demo.chain)
                (Block_ParentHash Demo.block1) is Some parent
           then [EvBuildStateDiff (Block_Root parent) (Block_Root Demo.block1)
                   (Block_Number Demo.block1) (Block_Hash Demo.block1)]
           else []).
Proof.
  apply (@Loop_chainEvent_cache_miss Demo.builder Demo.chain Demo.encoder
           Demo.go_range (mkChainEvent Demo.block1) Demo.two_subscribers);
    reflexivity.
Defined.

Lemma Loop_chainEvent_parent_missing_witness :
  exists w',
    @Loop_select Demo.builder Demo.chain Demo.encoder Demo.go_range
      (RecvChainEvent (mkChainEvent Demo.block2)) Demo.two_subscribers
    = Ret Selecting w'
    /\ sds w' = with_lastBlock (Some Demo.block2) (sds Demo.two_subscribers)
    /\ payloadChans w' = payloadChans Demo.two_subscribers
    /\ boolChans w' = boolChans Demo.two_subscribers
    /\ builder_calls (trace w') = builder_calls (trace Demo.two_subscribers)
    /\ (forall id, same_events id (trace Demo.two_subscribers) (trace w'))
    /\ error_lines (trace w') = S (error_lines (trace Demo.two_subscribers)).
Proof.
  apply (@Loop_chainEvent_parent_missing Demo.builder Demo.chain Demo.encoder
           Demo.go_range (mkChainEvent Demo.block2) Demo.two_subscribers);
    reflexivity.
Defined.

Lemma Loop_returned_is_final_witness :
  @Loop Demo.builder Demo.chain Demo.encoder Demo.go_range
    ([RecvQuit] ++ [RecvChainEvent (mkChainEvent Demo.block1)])
    Demo.two_subscribers
  = Ret Returned
      (world_of (@Loop Demo.builder Demo.chain Demo.encoder Demo.go_range
                   [RecvQuit] Demo.two_subscribers)).
Proof.
  apply (@Loop_returned_is_final Demo.builder Demo.chain Demo.encoder
           Demo.go_range [RecvQuit]
           [RecvChainEvent (mkChainEvent Demo.block1)] Demo.two_subscribers).
  vm_compute. reflexivity.
Defined.

Lemma Loop_shutdown_witness :
  exists w',
    @Loop Demo.builder Demo.chain Demo.encoder Demo.go_range
      ([] ++ RecvErr "feed closed" :: [RecvChainEvent (mkChainEvent Demo.block1)])
      Stalled.world = Ret Returned w'
    /\ last (trace w') = Some EvChainEventUnsubscribe
    /\ Subscriptions (sds w') = ∅
    /\ Mutex (sds w') = false
    /\ (forall id, quit_attempts id (trace w')
          = if Subscriptions
                 (sds (with_trace [EvSubscribeChainEvent] Stalled.world))
               !! id is Some _
            then S (quit_attempts id
                      (trace (with_trace [EvSubscribeChainEvent] Stalled.world)))
            else quit_attempts id
                   (trace (with_trace [EvSubscribeChainEvent] Stalled.world)))
    /\ (forall id sub,
          Subscriptions (sds (with_trace [EvSubscribeChainEvent] Stalled.world))
            !! id = Some sub ->
          private_control (with_trace [EvSubscribeChainEvent] Stalled.world)
            id sub ->
          signalled id sub (with_trace [EvSubscribeChainEvent] Stalled.world) w')
    /\ (forall id, payload_attempts id (trace w')
          = payload_attempts id
              (trace (with_trace [EvSubscribeChainEvent] Stalled.world)))
    /\ builder_calls (trace w')
       = builder_calls
           (trace (with_trace [EvSubscribeChainEvent] Stalled.world)).
Proof.
  apply (@Loop_shutdown Demo.builder Demo.chain Demo.encoder Demo.go_range
           [] (RecvErr "feed closed")
           [RecvChainEvent (mkChainEvent Demo.block1)] Stalled.world
           (with_trace [EvSubscribeChainEvent] Stalled.world)).
  - reflexivity.
  - reflexivity.
  - reflexivity.
  - vm_compute. reflexivity.
Defined.

(** On that world both signals land: after the shutdown the control
    sinks of S1 and S3 each hold [true]. *)
Remark shutdown_signals_land :
  exists w',
    @Loop Demo.builder Demo.chain Demo.encoder Demo.go_range
      [RecvErr "feed closed"] Stalled.world = Ret Returned w'
    /\ boolChans w' !! 3%positive = Some (mkChan 1%nat [true] 0%nat false)
    /\ boolChans w' !! 7%positive = Some (mkChan 1%nat [true] 0%nat false)
    /\ payloadChans w' = payloadChans Stalled.world.
Proof.
  eexists. split. { vm_compute. reflexivity. }
  repeat split; vm_compute; reflexivity.
Qed.

Lemma last_Unsubscribe_halts_processing_witness :
  exists w1, Unsubscribe "S1" Scene.only_S1 = Ret None w1
    /\ Subscriptions (sds w1) = ∅
    /\ subscribers (sds w1) = 0
    /\ (forall chainEvents,
          exists w2,
            @Loop Demo.builder Demo.chain Demo.encoder Demo.go_range
              (RecvChainEvent <$> chainEvents) w1 = Ret Selecting w2
            /\ builder_calls (trace w2) = builder_calls (trace w1)).
Proof.
  apply (@last_Unsubscribe_halts_processing Demo.builder Demo.chain
           Demo.encoder Demo.go_range "S1" Demo.S1 Scene.only_S1);
    reflexivity.
Defined.

Lemma send_evicting_all_halts_processing_witness :
  exists w1, @send Demo.go_range Demo.payload1 Scene.only_S2 = Ret tt w1
    /\ Subscriptions (sds w1) = ∅
    /\ subscribers (sds w1) = 0
    /\ (forall chainEvents,
          exists w2,
            @Loop Demo.builder Demo.chain Demo.encoder Demo.go_range
              (RecvChainEvent <$> chainEvents) w1 = Ret Selecting w2
            /\ builder_calls (trace w2) = builder_calls (trace w1)).
Proof.
  apply (@send_evicting_all_halts_processing Demo.builder Demo.chain
           Demo.encoder Demo.go_range Demo.payload1 Scene.only_S2).
  - reflexivity.
  - vm_compute. reflexivity.
  - right. reflexivity.
  - intros id sub Hid. cbn in Hid.
    apply lookup_singleton_Some in Hid as [_ <-]. reflexivity.
Defined.


Lemma Subscribe_overtaken_leaves_gate_closed_witness :
  (forall w0, Subscribe "S1" 2 3 w0
              = (Subscribe_flag ;; Subscribe_register "S1" 2 3) w0)
  /\ exists w1 w2 w3,
       Subscribe_flag Demo.fresh = Ret tt w1
       /\ @send Demo.go_range Demo.payload1 w1 = Ret tt w2
       /\ Subscribe_register "S1" 2 3 w2 = Ret tt w3
       /\ Subscriptions (sds w3) = {[ "S1" := mkSubscription 2 3 ]}
       /\ subscribers (sds w3) = 0
       /\ gate_ok w3 = false
       /\ (forall chainEvents,
             exists w4,
               @Loop Demo.builder Demo.chain Demo.encoder Demo.go_range
                 (RecvChainEvent <$> chainEvents) w3 = Ret Selecting w4
               /\ builder_calls (trace w4) = builder_calls (trace w3)).
Proof.
  apply (@Subscribe_overtaken_leaves_gate_closed Demo.builder Demo.chain
           Demo.encoder Demo.go_range "S1" 2%positive 3%positive
           Demo.payload1 Demo.fresh);
    reflexivity.
Defined.
